(** * Response interpretation and evaluation pipeline of
      [prompting/scripts/few_shot_prompting.py]

    A shallow embedding of the label parser ([parse_prompt_response]), the
    single-item classifier ([few_shot_prompting]), the evaluation loop
    ([evaluate_few_shot_method], [run_few_shot_evaluation]) and the metrics
    aggregator ([calculate_metrics]), followed by the properties stated for
    them. *)

From Stdlib Require Import String Ascii ZArith NArith QArith Bool Lia List.
Import ListNotations.

Close Scope Q_scope.
Set Implicit Arguments.

(** ** Python strings

    A Python [str] is a sequence of Unicode code points; slicing, [in],
    [split] and [strip] all count code points, so a string is a list of
    code points here. *)

Definition char := N.
Definition str := list char.

(** An ASCII literal of the source as a [str]. *)
Definition lit (s : string) : str := map N_of_ascii (list_ascii_of_string s).

Definition LF : char := 10%N.
Definition SPACE : char := 32%N.
Definition DQUOTE : char := 34%N.
Definition RIGHT_ARROW : char := 8594%N.

Definition is_ascii (c : char) : bool := (c <? 128)%N.

(** [str.lower] on a code point of the ASCII range. *)
Definition ascii_lower (c : char) : char :=
  if ((65 <=? c) && (c <=? 90))%N then (c + 32)%N else c.

(** [str.isspace] on a code point of the ASCII range: TAB, LF, VT, FF, CR,
    FS, GS, RS, US and SPACE. *)
Definition ascii_isspace (c : char) : bool :=
  ((9 <=? c) && (c <=? 13) || (28 <=? c) && (c <=? 31) || (c =? 32))%N.

(** The Unicode tables behind [str.lower] and [str.strip] are part of the
    interpreter, not of the program.  They are an interface here: any case
    mapping and any whitespace class that agree with the ASCII ones on ASCII
    text. *)
Class Unicode := {
  lower : str -> str;
  isspace : char -> bool;
  lower_ascii : forall s, forallb is_ascii s = true -> lower s = map ascii_lower s;
  isspace_ascii : forall c, is_ascii c = true -> isspace c = ascii_isspace c
}.

Fixpoint str_eqb (a b : str) : bool :=
  match a, b with
  | [], [] => true
  | x :: a', y :: b' => (x =? y)%N && str_eqb a' b'
  | _, _ => false
  end.

(** [s.startswith(p)] *)
Fixpoint startswith (s p : str) {struct p} : bool :=
  match p, s with
  | [], _ => true
  | _ :: _, [] => false
  | a :: p', b :: s' => (a =? b)%N && startswith s' p'
  end.

(** [s.endswith(p)] *)
Definition endswith (s p : str) : bool := startswith (rev s) (rev p).

(** [p in s] *)
Fixpoint str_in (p s : str) : bool :=
  startswith s p ||
  match s with
  | [] => false
  | _ :: s' => str_in p s'
  end.

(** [s[:n]] for a non-negative [n] *)
Definition slice_to (n : nat) (s : str) : str := firstn n s.

(** [s.split(sep)] for a non-empty [sep] (both call sites pass a non-empty
    literal).  The text is scanned from the left; [skip] counts the
    characters of a separator just matched that are still to be passed over,
    [cur] holds the piece being collected, reversed. *)
Fixpoint split_from (sep : str) (skip : nat) (cur : str) (s : str) : list str :=
  match s with
  | [] => [rev cur]
  | c :: s' =>
      match skip with
      | S k => split_from sep k cur s'
      | O =>
          if startswith s sep
          then rev cur :: split_from sep (length sep - 1) [] s'
          else split_from sep O (c :: cur) s'
      end
  end.

Definition split (s sep : str) : list str := split_from sep 0 [] s.

(** [l[-1]] of a list that [split] returned (never empty). *)
Definition last_piece (l : list str) : str := last l [].

Section Text.

Context {U : Unicode}.

Fixpoint lstrip (s : str) : str :=
  match s with
  | [] => []
  | c :: s' => if isspace c then lstrip s' else s
  end.

Definition rstrip (s : str) : str := rev (lstrip (rev s)).

(** [s.strip()] *)
Definition strip (s : str) : str := rstrip (lstrip s).

(** ** The label parser *)

Definition patterns_1 : list str :=
  map lit
    [ "[1]"; "label: 1"; "classification: 1"; "answer: 1";
      "1 (clickbait)"; "1(clickbait)"; "result: 1";
      "output: 1"; "prediction: 1"; "final: 1" ]%string.

Definition patterns_0 : list str :=
  map lit
    [ "[0]"; "label: 0"; "classification: 0"; "answer: 0";
      "0 (no-clickbait)"; "0(no-clickbait)"; "result: 0";
      "output: 0"; "prediction: 0"; "final: 0" ]%string.

(** [for pattern in patterns: if pattern in response_text: ...] *)
Definition any_pattern_in (patterns : list str) (response_text : str) : bool :=
  existsb (fun pattern => str_in pattern response_text) patterns.

(** The tests made on one line of the fallback, after [line.strip()]. *)
Definition line_says_1 (line : str) : bool :=
  str_eqb line (lit "1") || endswith line (lit " 1") || startswith line (lit "1 ").

Definition line_says_0 (line : str) : bool :=
  str_eqb line (lit "0") || endswith line (lit " 0") || startswith line (lit "0 ").

(** [for line in reversed(lines): ...]; the argument is the reversed list.
    [None] when the loop ends without a [return]. *)
Fixpoint scan_lines (reversed_lines : list str) : option Z :=
  match reversed_lines with
  | [] => None
  | line :: rest =>
      let line := strip line in
      if line_says_1 line then Some 1%Z
      else if line_says_0 line then Some 0%Z
      else scan_lines rest
  end.

Definition UNKNOWN : Z := (-1)%Z.

Definition parse_prompt_response (response_text : str) (method : str) : Z :=
  let original_text := response_text in
  let response_text := lower response_text in
  if any_pattern_in patterns_1 response_text then 1%Z
  else if any_pattern_in patterns_0 response_text then 0%Z
  else
    let lines := split (strip response_text) [LF] in
    match scan_lines (rev lines) with
    | Some label => label
    | None =>
        if str_in (lit "clickbait") response_text
           && negb (str_in (lit "no-clickbait") response_text)
           && negb (str_in (lit "not clickbait") response_text)
        then 1%Z
        else if str_in (lit "no-clickbait") response_text
                || str_in (lit "not clickbait") response_text
        then 0%Z
        else UNKNOWN
    end.

End Text.

(** ** Effects

    The program prints, calls the model client, sleeps and raises.  A run of
    a function is the list of lines it printed, in order, together with how
    it ended: by returning a value or by raising. *)

(** The exceptions below [Exception] that the program can meet. *)
Inductive exception :=
  | IndexError
  | AttributeError
  | ValueError
  | ClientError (message : str).

(** [BaseException]: [except Exception] catches the first constructor only;
    an operator interrupt is a [KeyboardInterrupt]. *)
Inductive BaseException :=
  | Exception (e : exception)
  | KeyboardInterrupt.

Inductive outcome (A : Type) :=
  | Returned (a : A)
  | Raised (e : BaseException).

Arguments Raised {A} e.

Inductive average := macro | weighted.

(** The dict returned by [calculate_metrics]. *)
Record MetricsSummary := {
  method : str;
  accuracy : Q;
  precision_macro : Q;
  recall_macro : Q;
  f1_macro : Q;
  precision_weighted : Q;
  recall_weighted : Q;
  f1_weighted : Q;
  valid_samples : nat;
  total_samples : nat
}.

(** What the program prints, one constructor per [print] of the source
    (a block of consecutive prints that always run together is one
    constructor). *)
Inductive event :=
  | PrintErrorInFewShotPrompting (e : exception)
  | PrintNoValidPredictions (method_name : str)
  | PrintResults (summary : MetricsSummary) (report : str)
  | PrintEvaluatingBanner
  | PrintProgress (index total : nat) (title : str)
  | PrintPrediction (prediction : Z) (label_name : str)
  | PrintResponseParsingError
  | PrintEvaluationBanner
  | PrintUnableToLoadTestData
  | PrintLoadedTestSamples (n : nat)
  | PrintCompletedSuccessfully
  | PrintFailedToGenerateValidMetrics
  | PrintStoppedByUser
  | PrintErrorInFewShotEvaluation (e : exception).

Definition run (A : Type) : Type := (list event * outcome A)%type.

Definition ret {A} (a : A) : run A := ([], Returned a).

Definition raise {A} (e : BaseException) : run A := ([], Raised e).

Definition print (ev : event) : run unit := ([ev], Returned tt).

(** The result of a call into the outside world, which prints nothing. *)
Definition external {A} (o : outcome A) : run A := ([], o).

Definition bind {A B} (m : run A) (k : A -> run B) : run B :=
  match m with
  | (out, Returned a) => let (out', o) := k a in (out ++ out', o)
  | (out, Raised e) => (out, Raised e)
  end.

Declare Scope run_scope.
Delimit Scope run_scope with run.
Notation "x <- m ;; k" := (bind m (fun x => k))
  (at level 61, m at next level, right associativity) : run_scope.
Notation "m ;;; k" := (bind m (fun _ => k))
  (at level 61, right associativity) : run_scope.
Open Scope run_scope.

(** [try: body  except Exception as e: handler e]; a [KeyboardInterrupt]
    passes through. *)
Definition try_except_Exception {A} (body : run A) (handler : exception -> run A) : run A :=
  match body with
  | (out, Raised (Exception e)) => let (out', o) := handler e in (out ++ out', o)
  | _ => body
  end.

(** [try: body  except KeyboardInterrupt: on_interrupt
                except Exception as e: handler e] *)
Definition try_except_KeyboardInterrupt_Exception {A}
    (body : run A) (on_interrupt : run A) (handler : exception -> run A) : run A :=
  match body with
  | (out, Raised KeyboardInterrupt) => let (out', o) := on_interrupt in (out ++ out', o)
  | (out, Raised (Exception e)) => let (out', o) := handler e in (out ++ out', o)
  | _ => body
  end.

(** [[f(x) for x in l]], stopping at the first [f(x)] that raises. *)
Fixpoint comprehension {A B} (f : A -> run B) (l : list A) : run (list B) :=
  match l with
  | [] => ret []
  | x :: l' => y <- f x ;; ys <- comprehension f l' ;; ret (y :: ys)
  end.

(** [l[i]] for a non-negative [i] *)
Definition getitem {A} (l : list A) (i : nat) : run A :=
  match nth_error l i with
  | Some a => ret a
  | None => raise (Exception IndexError)
  end.

(** [enumerate(l)] *)
Definition enumerate {A} (l : list A) : list (nat * A) :=
  combine (seq 0 (length l)) l.

(** ** The model client *)

Record ChatRequest := {
  model : str;
  system_content : str;
  user_content : str;
  max_tokens : Z;
  temperature : Z
}.

(** [response.choices], each choice by its [message.content], which the
    client's types allow to be [None]. *)
Record ChatResponse := { choices : list (option str) }.

(** One call of [client.chat.completions.create]. *)
Definition Client := ChatRequest -> outcome ChatResponse.

Definition quoted (s : str) : str := DQUOTE :: s ++ [DQUOTE].

Definition ARROW : str := [SPACE; RIGHT_ARROW; SPACE].

Definition few_shot_prompt (title : str) : str :=
  lit "Classify headlines as clickbait based on these examples:" ++ [LF; LF]
  ++ lit "1. " ++ quoted (lit "Federal Reserve raises interest rates by 0.5%")
  ++ ARROW ++ lit "0 (specific data, neutral)" ++ [LF]
  ++ lit "2. " ++ quoted (lit "You'll NEVER believe what this dog did!")
  ++ ARROW ++ lit "1 (emotional " ++ quoted (lit "NEVER") ++ lit ", withholding info)" ++ [LF]
  ++ lit "3. " ++ quoted (lit "Apple reports Q3 earnings: Revenue up 8%")
  ++ ARROW ++ lit "0 (factual business news)" ++ [LF]
  ++ lit "4. " ++ quoted (lit "This ONE trick doctors don't want you to know")
  ++ ARROW ++ lit "1 (" ++ quoted (lit "ONE trick") ++ lit ", conspiracy)" ++ [LF]
  ++ lit "5. " ++ quoted (lit "Study: Mediterranean diet reduces heart disease 30%")
  ++ ARROW ++ lit "0 (research findings)" ++ [LF]
  ++ lit "6. " ++ quoted (lit "What happens next will SHOCK you completely")
  ++ ARROW ++ lit "1 (emotional " ++ quoted (lit "SHOCK") ++ lit ", vague)" ++ [LF; LF]
  ++ lit "Now classify: " ++ quoted title ++ [LF; LF]
  ++ lit "Answer: 0 or 1".

(** [os.environ.get("OPENAI_MODEL", "gpt-4o-mini")] *)
Definition model_name (OPENAI_MODEL : option str) : str :=
  match OPENAI_MODEL with
  | Some m => m
  | None => lit "gpt-4o-mini"
  end.

(** The arguments of [client.chat.completions.create]. *)
Definition chat_request (OPENAI_MODEL : option str) (prompt : str) : ChatRequest :=
  {| model := model_name OPENAI_MODEL;
     system_content := lit "You are an expert clickbait detection specialist.";
     user_content := prompt;
     max_tokens := 50;
     temperature := 0 |}.

Definition few_shot : str := lit "few_shot".

Section Classifier.

Context {U : Unicode}.

(** The block under [# Simple parsing]: [Some label] when it returns,
    [None] when control falls through to the call of the parser. *)
Definition simple_parsing (response_text : str) : option Z :=
  if str_in (lit "answer:") (lower response_text) then
    let answer_part := last_piece (split (lower response_text) (lit "answer:")) in
    if str_in (lit "1") (slice_to 5 answer_part) then Some 1%Z
    else if str_in (lit "0") (slice_to 5 answer_part) then Some 0%Z
    else None
  else None.

(** [response.choices[0].message.content.strip()] *)
Definition response_content_stripped (response : ChatResponse) : run str :=
  choice <- getitem (choices response) 0 ;;
  match choice with
  | Some content => ret (strip content)
  | None => raise (Exception AttributeError)
  end.

Definition few_shot_prompting (OPENAI_MODEL : option str) (client : Client) (title : str) : run Z :=
  let prompt := few_shot_prompt title in
  try_except_Exception
    (response <- external (client (chat_request OPENAI_MODEL prompt)) ;;
     response_text <- response_content_stripped response ;;
     match simple_parsing response_text with
     | Some label => ret label
     | None => ret (parse_prompt_response response_text few_shot)
     end)
    (fun e => print (PrintErrorInFewShotPrompting e) ;;; ret (-1)%Z).

End Classifier.

(** ** The metrics aggregator *)

(** [sklearn.metrics.accuracy_score]: the fraction of positions at which the
    two sequences agree, as an exact rational; the code's value is the double
    nearest to it, the same number whenever the fraction is a double, as 3/4
    is.  Both arguments have the same non-zero length at the only call
    site. *)
Definition accuracy_score (y_true y_pred : list Z) : Q :=
  let hits := filter (fun p => (fst p =? snd p)%Z) (combine y_true y_pred) in
  Z.of_nat (length hits) # Pos.of_nat (length y_true).

(** The other functions taken from [sklearn.metrics]: the three scores, all
    called with [zero_division=0], and the text that [classification_report]
    lays out when it returns. *)
Class Sklearn := {
  precision_score : list Z -> list Z -> average -> Q;
  recall_score : list Z -> list Z -> average -> Q;
  f1_score : list Z -> list Z -> average -> Q;
  report_text : list Z -> list Z -> list str -> str
}.

(** The distinct values of a list, each kept at its last occurrence. *)
Fixpoint distinct (l : list Z) : list Z :=
  match l with
  | [] => []
  | x :: l' => if existsb (Z.eqb x) l' then distinct l' else x :: distinct l'
  end.

(** The classes [classification_report] finds when no [labels] are passed:
    the distinct values of the true labels and the predictions together
    (sklearn sorts them; only their number matters here). *)
Definition unique_labels (y_true y_pred : list Z) : list Z :=
  distinct (y_true ++ y_pred).

(** [classification_report(y_true, y_pred, target_names=target_names)]: with
    no [labels] passed it raises [ValueError] unless there are as many
    classes in the data as target names. *)
Definition classification_report {SK : Sklearn}
    (y_true y_pred : list Z) (target_names : list str) : run str :=
  if (length (unique_labels y_true y_pred) =? length target_names)%nat
  then ret (report_text y_true y_pred target_names)
  else raise (Exception ValueError).

(** [[i for i, pred in enumerate(predictions) if pred != -1]] *)
Definition valid_indices_of (predictions : list Z) : list nat :=
  map fst (filter (fun ip => negb (snd ip =? -1)%Z) (enumerate predictions)).

Section Metrics.

Context {SK : Sklearn}.

Definition calculate_metrics (predictions true_labels : list Z) (method_name : str)
  : run (option MetricsSummary) :=
  let valid_indices := valid_indices_of predictions in
  valid_predictions <- comprehension (getitem predictions) valid_indices ;;
  valid_true_labels <- comprehension (getitem true_labels) valid_indices ;;
  if (length valid_predictions =? 0)%nat then
    print (PrintNoValidPredictions method_name) ;;;
    ret None
  else
    let accuracy := accuracy_score valid_true_labels valid_predictions in
    let precision_macro := precision_score valid_true_labels valid_predictions macro in
    let recall_macro := recall_score valid_true_labels valid_predictions macro in
    let f1_macro := f1_score valid_true_labels valid_predictions macro in
    let precision_weighted := precision_score valid_true_labels valid_predictions weighted in
    let recall_weighted := recall_score valid_true_labels valid_predictions weighted in
    let f1_weighted := f1_score valid_true_labels valid_predictions weighted in
    report <- classification_report valid_true_labels valid_predictions
                [lit "No-clickbait"; lit "Clickbait"] ;;
    let summary :=
      {| method := method_name;
         accuracy := accuracy;
         precision_macro := precision_macro;
         recall_macro := recall_macro;
         f1_macro := f1_macro;
         precision_weighted := precision_weighted;
         recall_weighted := recall_weighted;
         f1_weighted := f1_weighted;
         valid_samples := length valid_predictions;
         total_samples := length predictions |} in
    print (PrintResults summary report) ;;;
    ret (Some summary).

End Metrics.

(** ** The evaluation loop *)

(** One record of the loaded data: [item['title']], [item['label']]. *)
Record Sample := { title : str; label : Z }.

(** What a run meets outside the program: the environment variable, the
    model client at its [i]-th call, [time.sleep] after the [i]-th item, and
    the data set the loader finds. *)
Record World := {
  OPENAI_MODEL : option str;
  client_call : nat -> Client;
  time_sleep : nat -> Q -> outcome unit;
  load_evaluation_data : str -> nat -> list Sample
}.

(** [label_map.get(prediction, "Unknown")] *)
Definition label_name_of (prediction : Z) : str :=
  if (prediction =? 0)%Z then lit "No-clickbait"
  else if (prediction =? 1)%Z then lit "Clickbait"
  else lit "Unknown".

(** The two lists that [evaluate_few_shot_method] fills: its locals
    [predictions] and [true_labels]. *)
Definition Lists : Type := (list Z * list Z)%type.

(** A piece of the loop: a run that also reads and updates the two lists.
    When it raises, the lists are as they were at the [raise]. *)
Definition loop (A : Type) : Type := Lists -> (list event * Lists * outcome A)%type.

Definition loop_ret {A} (a : A) : loop A := fun st => ([], st, Returned a).

Definition loop_bind {A B} (m : loop A) (k : A -> loop B) : loop B :=
  fun st =>
    match m st with
    | (out, st', Returned a) =>
        match k a st' with
        | (out', st'', o) => (out ++ out', st'', o)
        end
    | (out, st', Raised e) => (out, st', Raised e)
    end.

(** A run that does not touch the lists. *)
Definition lift {A} (m : run A) : loop A := fun st => (fst m, st, snd m).

(** [predictions.append(prediction)] *)
Definition predictions_append (prediction : Z) : loop unit :=
  fun st => ([], (fst st ++ [prediction], snd st), Returned tt).

(** [true_labels.append(true_label)] *)
Definition true_labels_append (true_label : Z) : loop unit :=
  fun st => ([], (fst st, snd st ++ [true_label]), Returned tt).

Declare Scope loop_scope.
Delimit Scope loop_scope with loop.
Notation "x <- m ;; k" := (loop_bind m (fun x => k))
  (at level 61, m at next level, right associativity) : loop_scope.
Notation "m ;;; k" := (loop_bind m (fun _ => k))
  (at level 61, right associativity) : loop_scope.

(** The prints of [calculate_metrics]. *)
Definition is_metrics_report (ev : event) : bool :=
  match ev with
  | PrintNoValidPredictions _ | PrintResults _ _ => true
  | _ => false
  end.

Section Evaluation.

Context {U : Unicode} {SK : Sklearn}.

Variable w : World.

(** The [for i, item in enumerate(data)] loop from item [i] on. *)
Fixpoint evaluate_items (total : nat) (delay : Q) (i : nat) (data : list Sample)
  : loop unit :=
  match data with
  | [] => loop_ret tt
  | item :: rest =>
      (let true_label := label item in
       lift (print (PrintProgress (i + 1) total (slice_to 60 (title item)))) ;;;
       prediction <- lift (few_shot_prompting (OPENAI_MODEL w) (client_call w i) (title item)) ;;
       predictions_append prediction ;;;
       true_labels_append true_label ;;;
       lift (if negb (prediction =? -1)%Z
             then print (PrintPrediction prediction (label_name_of prediction))
             else print PrintResponseParsingError) ;;;
       lift (external (time_sleep w i delay)) ;;;
       evaluate_items total delay (S i) rest)%loop
  end.

(** The body of [evaluate_few_shot_method], started with both lists empty:
    what it printed, the two lists when it ended, and how it ended. *)
Definition evaluate_few_shot_frame (data : list Sample) (delay : Q)
  : list event * Lists * outcome unit :=
  (lift (print PrintEvaluatingBanner) ;;;
   evaluate_items (length data) delay 0 data)%loop ([], []).

(** [return predictions, true_labels] at the end of the body; when the body
    raises, the exception leaves the function and its locals are gone. *)
Definition evaluate_few_shot_method (data : list Sample) (delay : Q)
  : run (list Z * list Z) :=
  match evaluate_few_shot_frame data delay with
  | (out, lists, Returned _) => (out, Returned lists)
  | (out, _, Raised e) => (out, Raised e)
  end.

Definition run_few_shot_evaluation (data_limit : nat) : run unit :=
  print PrintEvaluationBanner ;;;
  let data_path := lit "../../shared/data/test/data.jsonl" in
  let test_data := load_evaluation_data w data_path data_limit in
  match test_data with
  | [] =>
      print PrintUnableToLoadTestData ;;;
      ret tt
  | _ :: _ =>
      print (PrintLoadedTestSamples (length test_data)) ;;;
      try_except_KeyboardInterrupt_Exception
        (collected <- evaluate_few_shot_method test_data 1 ;;
         let (predictions, true_labels) := collected in
         metrics <- calculate_metrics predictions true_labels few_shot ;;
         match metrics with
         | Some _ => print PrintCompletedSuccessfully
         | None => print PrintFailedToGenerateValidMetrics
         end)
        (print PrintStoppedByUser)
        (fun e => print (PrintErrorInFewShotEvaluation e))
  end.

End Evaluation.

(** ** Executable instances *)

(** The interpreter's tables restricted to ASCII: code points outside the
    ASCII range are left alone by [lower] and are not whitespace. *)
Definition ascii_unicode : Unicode :=
  {| lower := map ascii_lower;
     isspace := ascii_isspace;
     lower_ascii := fun s _ => eq_refl;
     isspace_ascii := fun c _ => eq_refl |}.

(** A reference implementation of the averaged scores, to run the
    aggregator on examples: per label [l], with [tp] the positions where both
    sequences are [l], precision is [tp] over the predictions equal to [l],
    recall is [tp] over the true labels equal to [l], and F1 is [2 tp] over
    the sum of the two counts, each 0 when its denominator is 0. *)
Module Reference.

Definition count (f : Z -> Z -> bool) (y_true y_pred : list Z) : Z :=
  Z.of_nat (length (filter (fun tp => f (fst tp) (snd tp)) (combine y_true y_pred))).

Definition ratio (a b : Z) : Q :=
  if (b =? 0)%Z then 0 else (a # Z.to_pos b).

Definition labels (y_true y_pred : list Z) : list Z :=
  nodup Z.eq_dec (y_true ++ y_pred).

Definition tp y_true y_pred (l : Z) : Z :=
  count (fun t p => (t =? l)%Z && (p =? l)%Z) y_true y_pred.
Definition pred_sum y_true y_pred (l : Z) : Z :=
  count (fun _ p => (p =? l)%Z) y_true y_pred.
Definition true_sum y_true y_pred (l : Z) : Z :=
  count (fun t _ => (t =? l)%Z) y_true y_pred.

Definition precision_of y_true y_pred l : Q :=
  ratio (tp y_true y_pred l) (pred_sum y_true y_pred l).
Definition recall_of y_true y_pred l : Q :=
  ratio (tp y_true y_pred l) (true_sum y_true y_pred l).
Definition f1_of y_true y_pred l : Q :=
  ratio (2 * tp y_true y_pred l) (pred_sum y_true y_pred l + true_sum y_true y_pred l).

Definition Qsum (l : list Q) : Q := fold_right Qplus 0%Q l.

Definition averaged (score : list Z -> list Z -> Z -> Q)
    (y_true y_pred : list Z) (avg : average) : Q :=
  let ls := labels y_true y_pred in
  match avg with
  | macro =>
      Qred (Qsum (map (score y_true y_pred) ls) / inject_Z (Z.of_nat (length ls)))%Q
  | weighted =>
      Qred (Qsum (map (fun l => inject_Z (true_sum y_true y_pred l) * score y_true y_pred l) ls)
            / inject_Z (Z.of_nat (length y_true)))%Q
  end.

Definition sklearn : Sklearn :=
  {| precision_score := averaged precision_of;
     recall_score := averaged recall_of;
     f1_score := averaged f1_of;
     report_text := fun _ _ _ => [] |}.

End Reference.

(** The marker of the fast path. *)
Definition ANSWER : str := lit "answer:".

(** A client that answers every request with the one reply [content]. *)
Definition replying (content : str) : Client :=
  fun _ => Returned {| choices := [Some content] |}.

(** Text made of ASCII code points only. *)
Definition ascii_text (s : str) : Prop := forallb is_ascii s = true.

(** A reply of two lines, the last of which is "1 vs 0". *)
Definition two_lines : str := lit "so:" ++ [LF] ++ lit "1 vs 0".

(** A client whose every call fails with a timeout. *)
Definition timing_out : Client :=
  fun _ => Raised (Exception (ClientError (lit "Request timed out."))).

(** A run over two samples in which the model answers "Answer: 1" and the
    operator interrupts the pause that follows the first item. *)
Definition two_samples : list Sample :=
  [ {| title := lit "You won't believe this"; label := 1 |};
    {| title := lit "Rates up"; label := 0 |} ].

Definition interrupted_world : World :=
  {| OPENAI_MODEL := None;
     client_call := fun _ => replying (lit "Answer: 1");
     time_sleep := fun i _ =>
       match i with
       | O => Raised KeyboardInterrupt
       | S _ => Returned tt
       end;
     load_evaluation_data := fun _ _ => two_samples |}.

(** A run over three samples in which the model answers "Answer: 1" to the
    first request and "Answer: 0" afterwards, and the operator interrupts the
    pause that follows the second item. *)
Definition three_samples : list Sample :=
  [ {| title := lit "You won't believe this"; label := 1 |};
    {| title := lit "Rates up"; label := 0 |};
    {| title := lit "Doctors hate him"; label := 1 |} ].

Definition late_interrupt_world : World :=
  {| OPENAI_MODEL := None;
     client_call := fun i =>
       match i with
       | O => replying (lit "Answer: 1")
       | S _ => replying (lit "Answer: 0")
       end;
     time_sleep := fun i _ =>
       match i with
       | S O => Raised KeyboardInterrupt
       | _ => Returned tt
       end;
     load_evaluation_data := fun _ _ => three_samples |}.

(** Output in which no line comes from [calculate_metrics]. *)
Definition quiet (out : list event) : Prop := existsb is_metrics_report out = false.

(** ** Further definitions used by the properties *)

(** The values a prediction can take. *)
Definition is_prediction (p : Z) : Prop := p = 0%Z \/ p = 1%Z \/ p = UNKNOWN.

(** A line on which the line-based fallback does not return. *)
Definition no_match_line (U : Unicode) (line : str) : Prop :=
  line_says_1 (strip line) = false /\ line_says_0 (strip line) = false.

(** The test of the filter in [calculate_metrics]: [pred != -1]. *)
Definition is_valid (pred : Z) : bool := negb (pred =? -1)%Z.

(** The (prediction, true label) pairs whose prediction is not -1. *)
Definition valid_pairs (predictions true_labels : list Z) : list (Z * Z) :=
  filter (fun pt => is_valid (fst pt)) (combine predictions true_labels).

(** The test under which [classification_report] returns at its call in
    [calculate_metrics]: the filtered true labels and predictions hold, taken
    together, as many distinct values as the two target names. *)
Definition two_classes (valid_true_labels valid_predictions : list Z) : bool :=
  (length (unique_labels valid_true_labels valid_predictions) =? 2)%nat.

(** The record [calculate_metrics] returns for given filtered lists. *)
Definition summary_of {SK : Sklearn} (method_name : str)
    (valid_true_labels valid_predictions : list Z) (total : nat) : MetricsSummary :=
  {| method := method_name;
     accuracy := accuracy_score valid_true_labels valid_predictions;
     precision_macro := precision_score valid_true_labels valid_predictions macro;
     recall_macro := recall_score valid_true_labels valid_predictions macro;
     f1_macro := f1_score valid_true_labels valid_predictions macro;
     precision_weighted := precision_score valid_true_labels valid_predictions weighted;
     recall_weighted := recall_score valid_true_labels valid_predictions weighted;
     f1_weighted := f1_score valid_true_labels valid_predictions weighted;
     valid_samples := length valid_predictions;
     total_samples := total |}.

(** What the classifier returns on the [i]-th item of a run, with -1
    standing in when it raises. *)
Definition prediction_at {U : Unicode} (w : World) (i : nat) (item : Sample) : Z :=
  match snd (few_shot_prompting (OPENAI_MODEL w) (client_call w i) (title item)) with
  | Returned prediction => prediction
  | Raised _ => UNKNOWN
  end.

(** No interrupt during the first [n] items: each pause returns and no call
    of the client raises [KeyboardInterrupt]. *)
Definition undisturbed (w : World) (delay : Q) (first n : nat) : Prop :=
  forall j, j < n ->
    time_sleep w (first + j) delay = Returned tt /\
    forall request, client_call w (first + j) request <> Raised KeyboardInterrupt.

(** A world in which every call of the client times out, nothing interrupts
    and the loader finds [two_samples]. *)
Definition outage_world : World :=
  {| OPENAI_MODEL := None;
     client_call := fun _ => timing_out;
     time_sleep := fun _ _ => Returned tt;
     load_evaluation_data := fun _ _ => two_samples |}.



(** ** The data loader

    [load_evaluation_data] with what it meets outside the program as
    parameters: which paths exist, the lines of a file that opens, and what
    [json.loads] makes of a line. *)
Module Loader.

(** A value that [json.loads] returns.  A dict is the list of its items;
    its keys are distinct, so the first item with a key is the item. *)
#[warnings="-register-all"]
Inductive json :=
  | JNull
  | JBool (b : bool)
  | JInt (n : Z)
  | JFloat (q : Q)
  | JString (s : str)
  | JArray (elements : list json)
  | JObject (items : list (str * json)).

(** The exceptions the loader can meet, all below [Exception]. *)
Inductive error :=
  | TypeError
  | KeyError (key : str)
  | AttributeError
  | JSONDecodeError
  | OSError.

(** One constructor per [print] of the loader. *)
Inductive line_printed :=
  | PrintLoadingDataFrom (path : str)
  | PrintLoadedSamples (n : nat)
  | PrintTestDataFileNotFound
  | PrintErrorLoadingData (e : error).

Record Outside := {
  os_path_exists : str -> bool;
  (** the lines that iterating over [open(path)] gives, [None] when opening
      raises *)
  open_lines : str -> option (list str);
  (** [None] when [json.loads] raises *)
  json_loads : str -> option json
}.

Definition result (A : Type) : Type := (error + A)%type.

Definition and_then {A B} (r : result A) (k : A -> result B) : result B :=
  match r with
  | inl e => inl e
  | inr a => k a
  end.

Declare Scope result_scope.
Delimit Scope result_scope with result.
Notation "x <- m ;; k" := (and_then m (fun x => k))
  (at level 61, m at next level, right associativity) : result_scope.

Fixpoint dict_get (key : str) (items : list (str * json)) : option json :=
  match items with
  | [] => None
  | (k, v) :: rest => if str_eqb k key then Some v else dict_get key rest
  end.

Definition is_string (s : str) (x : json) : bool :=
  match x with
  | JString s' => str_eqb s' s
  | _ => false
  end.

(** [needle in container] for a string [needle] *)
Definition py_in (needle : str) (container : json) : result bool :=
  match container with
  | JObject items =>
      inr (match dict_get needle items with Some _ => true | None => false end)
  | JArray elements => inr (existsb (is_string needle) elements)
  | JString s => inr (str_in needle s)
  | JNull | JBool _ | JInt _ | JFloat _ => inl TypeError
  end.

(** [container[key]] for a string [key] *)
Definition subscript (container : json) (key : str) : result json :=
  match container with
  | JObject items =>
      match dict_get key items with
      | Some v => inr v
      | None => inl (KeyError key)
      end
  | _ => inl TypeError
  end.

(** [container.get(key, default)] *)
Definition get (container : json) (key : str) (default : json) : result json :=
  match container with
  | JObject items =>
      inr (match dict_get key items with Some v => v | None => default end)
  | _ => inl AttributeError
  end.

(** [value.split(sep)] *)
Definition split_of (value : json) (sep : str) : result (list str) :=
  match value with
  | JString s => inr (split s sep)
  | _ => inl AttributeError
  end.

(** [s.strip(c)] for a one-character [c] *)
Fixpoint lstrip_char (c : char) (s : str) : str :=
  match s with
  | [] => []
  | x :: s' => if (x =? c)%N then lstrip_char c s' else s
  end.

Definition strip_char (c : char) (s : str) : str :=
  rev (lstrip_char c (rev (lstrip_char c s))).

Definition SEP : str := lit "[SEP]".

Definition DEFAULT_PATH : str := lit "../../shared/data/test/data.jsonl".

Definition possible_paths : list str :=
  map lit
    [ "../../shared/data/test/data_demo.jsonl";
      "../shared/data/test/data.jsonl";
      "shared/data/test/data.jsonl";
      "data/test/data.jsonl" ]%string.

Section Load.

Context {U : Unicode}.

Variable outside : Outside.

(** The body of the [for i, line in enumerate(f)] loop after
    [json.loads]: the element appended to [data]. *)
Definition build_item (item : json) (i : nat) : result json :=
  (has_text <- py_in (lit "text") item ;;
   if has_text then
     text <- subscript item (lit "text") ;;
     has_sep <- py_in SEP text ;;
     if has_sep then
       text <- subscript item (lit "text") ;;
       text_parts <- split_of text SEP ;;
       let title := strip_char DQUOTE (strip (hd [] text_parts)) in
       id <- get item (lit "id") (JInt (Z.of_nat i)) ;;
       label <- subscript item (lit "label") ;;
       truth_class <- get item (lit "truth_class") (JString (lit "unknown")) ;;
       inr (JObject [ (lit "id", id);
                      (lit "title", JString title);
                      (lit "label", label);
                      (lit "truth_class", truth_class) ])
     else inr item
   else inr item)%result.

(** The loop over the lines from line [i] on, with [data] as filled so far:
    the list when the loop ends, and the exception that ended it, if any. *)
Fixpoint read_lines (limit : Z) (i : nat) (lines : list str) (data : list json)
  : list json * option error :=
  match lines with
  | [] => (data, None)
  | line :: rest =>
      if (limit <=? Z.of_nat i)%Z then (data, None)
      else
        match json_loads outside (strip line) with
        | None => (data, Some JSONDecodeError)
        | Some item =>
            match build_item item i with
            | inl e => (data, Some e)
            | inr element => read_lines limit (S i) rest (data ++ [element])
            end
        end
  end.

(** The choice of [current_path]; [None] as in the source. *)
Definition current_path_of (file_path : str) : option str :=
  if os_path_exists outside file_path then Some file_path
  else if os_path_exists outside DEFAULT_PATH then Some DEFAULT_PATH
  else find (os_path_exists outside) possible_paths.

(** What is printed, and the list returned. *)
Definition load_evaluation_data (file_path : str) (limit : Z)
  : list line_printed * list json :=
  match current_path_of file_path with
  | Some current_path =>
      if negb (str_eqb current_path []) && os_path_exists outside current_path then
        match open_lines outside current_path with
        | None =>
            ([PrintLoadingDataFrom current_path; PrintErrorLoadingData OSError], [])
        | Some lines =>
            match read_lines limit 0 lines [] with
            | (data, None) =>
                ([PrintLoadingDataFrom current_path; PrintLoadedSamples (length data)],
                 data)
            | (data, Some e) =>
                ([PrintLoadingDataFrom current_path; PrintErrorLoadingData e], data)
            end
        end
      else ([PrintTestDataFileNotFound], [])
  | None => ([PrintTestDataFileNotFound], [])
  end.

(** The element that line [i] contributes, [None] when the line makes the
    loader stop with an exception. *)
Definition element_of (i : nat) (line : str) : option json :=
  match json_loads outside (strip line) with
  | None => None
  | Some item =>
      match build_item item i with
      | inl _ => None
      | inr element => Some element
      end
  end.

End Load.

End Loader.

(** A file of three lines, the second of which is not JSON, and a decoder
    that knows the first line only. *)
Definition three_lines : list str :=
  [ lit "{first}"; lit "oops"; lit "{third}" ].

Definition first_item : Loader.json :=
  Loader.JObject
    [ (lit "text", Loader.JString (quoted (lit "Rates up") ++ lit " [SEP] body [SEP] more"));
      (lit "label", Loader.JInt 0) ].

Definition small_outside : Loader.Outside :=
  {| Loader.os_path_exists := fun path => str_eqb path (lit "data/test/data.jsonl");
     Loader.open_lines := fun _ => Some three_lines;
     Loader.json_loads := fun s =>
       if str_eqb s (lit "{first}") then Some first_item else None |}.

(** * Properties *)

(** ** Strings *)

Lemma startswith_iff (s p : str) :
  startswith s p = true <-> exists rest, s = p ++ rest.
Proof.
  revert s; induction p as [|a p IH]; intros s; simpl.
  - split; [intros _; now exists s | reflexivity].
  - destruct s as [|b s].
    + split; [discriminate | intros [rest H]; discriminate].
    + rewrite andb_true_iff, N.eqb_eq, IH. split.
      * intros [-> [rest ->]]. now exists rest.
      * intros [rest H]. injection H as -> ->. split; [reflexivity | now exists rest].
Qed.

Lemma str_in_iff (p s : str) :
  str_in p s = true <-> exists before after, s = before ++ p ++ after.
Proof.
  induction s as [|c s IH]; simpl.
  - rewrite orb_false_r, startswith_iff. split.
    + intros [rest H]. now exists [], rest.
    + intros [[|x before] [after H]]; [now exists after | discriminate].
  - rewrite orb_true_iff, startswith_iff, IH. split.
    + intros [[rest H] | [before [after H]]].
      * now exists [], rest.
      * exists (c :: before), after. now rewrite H.
    + intros [[|x before] [after H]].
      * left. now exists after.
      * right. injection H as _ H. now exists before, after.
Qed.

Lemma str_in_app (p a b : str) :
  str_in p b = true -> str_in p (a ++ b) = true.
Proof.
  rewrite !str_in_iff. intros [before [after ->]].
  exists (a ++ before), after. now rewrite app_assoc.
Qed.

Lemma str_eqb_eq (a b : str) : str_eqb a b = true <-> a = b.
Proof.
  revert b; induction a as [|x a IH]; intros [|y b]; simpl;
    try (split; [discriminate | intros H; discriminate]); [tauto |].
  rewrite andb_true_iff, N.eqb_eq, IH. split.
  - now intros [-> ->].
  - intros H; injection H as -> ->; tauto.
Qed.

(** ** The label parser *)

Section ParserFacts.

Context {U : Unicode}.

Lemma any_pattern_in_iff (patterns : list str) (text : str) :
  any_pattern_in patterns text = true <->
  exists pattern, In pattern patterns /\ str_in pattern text = true.
Proof. unfold any_pattern_in. apply existsb_exists. Qed.

Lemma scan_lines_label (ls : list str) (v : Z) :
  scan_lines ls = Some v -> v = 0%Z \/ v = 1%Z.
Proof.
  induction ls as [|line rest IH]; simpl; [discriminate |].
  destruct (line_says_1 (strip line)); [intros [= <-]; now right |].
  destruct (line_says_0 (strip line)); [intros [= <-]; now left | exact IH].
Qed.

Lemma scan_lines_none (ls : list str) :
  Forall (fun line => line_says_1 (strip line) = false /\
                      line_says_0 (strip line) = false) ls ->
  scan_lines ls = None.
Proof.
  induction 1 as [|line rest [H1 H0] _ IH]; simpl; [reflexivity |].
  now rewrite H1, H0.
Qed.

Lemma scan_lines_first_1 (line : str) (rest : list str) :
  line_says_1 (strip line) = true -> scan_lines (line :: rest) = Some 1%Z.
Proof. simpl. now intros ->. Qed.

Lemma parse_prompt_response_positive (text method : str) :
  any_pattern_in patterns_1 (lower text) = true ->
  parse_prompt_response text method = 1%Z.
Proof. unfold parse_prompt_response. now intros ->. Qed.

Lemma parse_prompt_response_negative (text method : str) :
  any_pattern_in patterns_1 (lower text) = false ->
  any_pattern_in patterns_0 (lower text) = true ->
  parse_prompt_response text method = 0%Z.
Proof. unfold parse_prompt_response. now intros -> ->. Qed.

End ParserFacts.

(** ** ASCII text

    On ASCII text every [Unicode] instance computes what [ascii_unicode]
    computes, so a run of the model on an ASCII reply does not depend on the
    instance. *)

Lemma ascii_text_cons (c : char) (s : str) :
  ascii_text (c :: s) <-> is_ascii c = true /\ ascii_text s.
Proof. unfold ascii_text; simpl. apply andb_true_iff. Qed.

Lemma ascii_text_app (a b : str) :
  ascii_text (a ++ b) <-> ascii_text a /\ ascii_text b.
Proof. unfold ascii_text. rewrite forallb_app. apply andb_true_iff. Qed.

Lemma ascii_text_rev (s : str) : ascii_text (rev s) <-> ascii_text s.
Proof.
  induction s as [|c s IH]; simpl; [tauto |].
  rewrite ascii_text_app, !ascii_text_cons, IH.
  assert (ascii_text []) by reflexivity. tauto.
Qed.

Lemma ascii_text_lower (s : str) : ascii_text s -> ascii_text (map ascii_lower s).
Proof.
  induction s as [|c s IH]; simpl; [trivial |].
  rewrite !ascii_text_cons. intros [Hc Hs]. split; [| auto].
  unfold is_ascii, ascii_lower in *. apply N.ltb_lt in Hc. apply N.ltb_lt.
  destruct ((65 <=? c)%N && (c <=? 90)%N) eqn:E; [| assumption].
  apply andb_true_iff in E as [_ E]. apply N.leb_le in E. lia.
Qed.

Lemma split_from_ascii (sep : str) (s : str) :
  forall skip cur, ascii_text cur -> ascii_text s ->
  Forall ascii_text (split_from sep skip cur s).
Proof.
  induction s as [|c s IH]; intros skip cur Hcur Hs; simpl.
  - constructor; [now apply ascii_text_rev | constructor].
  - apply ascii_text_cons in Hs as [Hc Hs].
    destruct skip as [|k]; [| now apply IH].
    destruct (startswith (c :: s) sep).
    + constructor; [now apply ascii_text_rev | now apply IH].
    + apply IH; [now apply ascii_text_cons | assumption].
Qed.

Section AsciiAgreement.

Context {V : Unicode}.

Lemma lstrip_ascii (s : str) :
  ascii_text s ->
  lstrip s = lstrip (U:=ascii_unicode) s /\ ascii_text (lstrip s).
Proof.
  induction s as [|c s IH]; simpl; [now split |].
  intros H. pose proof H as H'. apply ascii_text_cons in H as [Hc Hs].
  rewrite (isspace_ascii c Hc).
  destruct (ascii_isspace c); [now apply IH | now split].
Qed.

Lemma strip_ascii (s : str) :
  ascii_text s -> strip s = strip (U:=ascii_unicode) s /\ ascii_text (strip s).
Proof.
  intros H. unfold strip, rstrip.
  destruct (lstrip_ascii H) as [E1 A1]. rewrite E1 in *.
  apply ascii_text_rev in A1.
  destruct (lstrip_ascii A1) as [E2 A2]. rewrite E2 in *.
  split; [reflexivity | now apply ascii_text_rev].
Qed.

Lemma scan_lines_ascii (ls : list str) :
  Forall ascii_text ls -> scan_lines ls = scan_lines (U:=ascii_unicode) ls.
Proof.
  induction 1 as [|line rest Hl _ IH]; simpl; [reflexivity |].
  destruct (strip_ascii Hl) as [-> _]. now rewrite IH.
Qed.

Lemma lower_ascii_text (s : str) :
  ascii_text s -> lower s = @lower ascii_unicode s /\ ascii_text (lower s).
Proof.
  intros H. rewrite (lower_ascii s H). split; [reflexivity |].
  now apply ascii_text_lower.
Qed.

Lemma parse_prompt_response_ascii (text method : str) :
  ascii_text text ->
  parse_prompt_response text method =
  parse_prompt_response (U:=ascii_unicode) text method.
Proof.
  intros H. unfold parse_prompt_response.
  destruct (lower_ascii_text H) as [-> A].
  destruct (strip_ascii A) as [-> A'].
  rewrite scan_lines_ascii; [reflexivity |].
  apply Forall_rev. apply split_from_ascii; [reflexivity | assumption].
Qed.

End AsciiAgreement.

(** ** Claims about the label parser *)

(** C1 (as amended).  A text whose lower-casing contains "label: 1" parses to
    1 whatever surrounds the marker.  A text whose lower-casing contains
    "label: 0" parses to 0 provided none of the positive markers occurs in
    it: the positive markers are looked for first. *)
Theorem parse_label_marker {U : Unicode} (text method : str) :
  (str_in (lit "label: 1") (lower text) = true ->
   parse_prompt_response text method = 1%Z) /\
  (str_in (lit "label: 0") (lower text) = true ->
   any_pattern_in patterns_1 (lower text) = false ->
   parse_prompt_response text method = 0%Z).
Proof.
  split.
  - intros H. apply parse_prompt_response_positive.
    apply any_pattern_in_iff. exists (lit "label: 1"). split; [| exact H].
    unfold patterns_1; simpl; tauto.
  - intros H Hpos. apply parse_prompt_response_negative; [exact Hpos |].
    apply any_pattern_in_iff. exists (lit "label: 0"). split; [| exact H].
    unfold patterns_0; simpl; tauto.
Qed.

Lemma parse_label_marker_witness :
  (str_in (lit "label: 1") (@lower ascii_unicode (lit "My Label: 1 (sure)")) = true /\
   parse_prompt_response (U:=ascii_unicode) (lit "My Label: 1 (sure)") few_shot = 1%Z) /\
  (str_in (lit "label: 0") (@lower ascii_unicode (lit "My Label: 0 (sure)")) = true /\
   any_pattern_in patterns_1 (@lower ascii_unicode (lit "My Label: 0 (sure)")) = false /\
   parse_prompt_response (U:=ascii_unicode) (lit "My Label: 0 (sure)") few_shot = 0%Z).
Proof.
  split.
  - split; [reflexivity |].
    apply (proj1 (parse_label_marker (U:=ascii_unicode) (lit "My Label: 1 (sure)") few_shot)).
    reflexivity.
  - split; [reflexivity | split; [reflexivity |]].
    apply (proj2 (parse_label_marker (U:=ascii_unicode) (lit "My Label: 0 (sure)") few_shot));
      reflexivity.
Defined.

(** C1 as stated fails: the lower-casing of "Label: 0 was my first guess, but
    Label: 1" contains "label: 0", and the parser returns 1. *)
Lemma label_0_overridden :
  str_in (lit "label: 0")
    (@lower ascii_unicode (lit "Label: 0 was my first guess, but Label: 1")) = true /\
  parse_prompt_response (U:=ascii_unicode)
    (lit "Label: 0 was my first guess, but Label: 1") few_shot = 1%Z /\
  parse_prompt_response (U:=ascii_unicode)
    (lit "Label: 0 was my first guess, but Label: 1") few_shot <> 0%Z.
Proof. vm_compute. repeat split; discriminate. Qed.

(** C2.  When a positive and a negative explicit marker both occur in the
    lower-cased text, the parser returns 1: the positive scan comes first. *)
Theorem parse_positive_marker_wins {U : Unicode} (text method pos neg : str) :
  In pos patterns_1 -> In neg patterns_0 ->
  str_in pos (lower text) = true ->
  str_in neg (lower text) = true ->
  parse_prompt_response text method = 1%Z.
Proof.
  intros Hpos _ Hin _. apply parse_prompt_response_positive.
  apply any_pattern_in_iff. now exists pos.
Qed.

Lemma parse_positive_marker_wins_witness :
  In (lit "answer: 1") patterns_1 /\ In (lit "label: 0") patterns_0 /\
  parse_prompt_response (U:=ascii_unicode)
    (lit "Answer: 1 (earlier I wrote label: 0)") few_shot = 1%Z.
Proof.
  assert (H1 : In (lit "answer: 1") patterns_1) by (unfold patterns_1; simpl; tauto).
  assert (H0 : In (lit "label: 0") patterns_0) by (unfold patterns_0; simpl; tauto).
  split; [exact H1 | split; [exact H0 |]].
  apply (parse_positive_marker_wins (U:=ascii_unicode)
           (lit "Answer: 1 (earlier I wrote label: 0)") few_shot H1 H0);
    reflexivity.
Defined.

Lemma split_from_nonempty (sep : str) (s : str) :
  forall skip cur, split_from sep skip cur s <> [].
Proof.
  induction s as [|c s IH]; intros skip cur; simpl; [discriminate |].
  destruct skip; [| apply IH].
  destruct (startswith (c :: s) sep); [discriminate | apply IH].
Qed.

Lemma rev_last_first (l : list str) :
  l <> [] -> rev l = last l [] :: rev (removelast l).
Proof.
  intros H. rewrite (app_removelast_last [] H) at 1.
  now rewrite rev_app_distr.
Qed.

(** C3.  A text with none of the explicit markers, no line on which the
    line-based fallback fires, and none of the three keywords parses to
    UNKNOWN, which is neither 0 nor 1. *)
Theorem parse_nothing_matches {U : Unicode} (text method : str) :
  any_pattern_in patterns_1 (lower text) = false ->
  any_pattern_in patterns_0 (lower text) = false ->
  Forall (fun line => line_says_1 (strip line) = false /\
                      line_says_0 (strip line) = false)
         (split (strip (lower text)) [LF]) ->
  str_in (lit "clickbait") (lower text) = false ->
  str_in (lit "no-clickbait") (lower text) = false ->
  str_in (lit "not clickbait") (lower text) = false ->
  parse_prompt_response text method = UNKNOWN /\
  parse_prompt_response text method <> 0%Z /\
  parse_prompt_response text method <> 1%Z.
Proof.
  intros H1 H0 Hlines Hc Hno Hnot.
  assert (E : parse_prompt_response text method = UNKNOWN).
  { unfold parse_prompt_response. rewrite H1, H0.
    rewrite scan_lines_none by (now apply Forall_rev).
    now rewrite Hc, Hno, Hnot. }
  rewrite E. repeat split; discriminate.
Qed.

Lemma parse_nothing_matches_witness :
  parse_prompt_response (U:=ascii_unicode)
    (lit "I think this could go either way") few_shot = UNKNOWN.
Proof.
  apply (parse_nothing_matches (U:=ascii_unicode)
           (lit "I think this could go either way") few_shot);
    try reflexivity.
  vm_compute. repeat constructor.
Defined.

Lemma parse_last_line_1 {U : Unicode} (text method : str) :
  any_pattern_in patterns_1 (lower text) = false ->
  any_pattern_in patterns_0 (lower text) = false ->
  line_says_1 (strip (last (split (strip (lower text)) [LF]) [])) = true ->
  parse_prompt_response text method = 1%Z.
Proof.
  intros H1 H0 Hline. unfold parse_prompt_response. rewrite H1, H0.
  rewrite rev_last_first by apply split_from_nonempty.
  now rewrite (scan_lines_first_1 _ _ Hline).
Qed.

(** C9.  In the line-based fallback the tests for 1 are made before the
    tests for 0 on each line: a text without explicit markers whose last
    line passes a test for 1 and a test for 0 parses to 1, not 0.  The text
    "1 vs 0" is one: its only line starts with "1 " and ends with " 0", and
    it parses to 1 under every [Unicode] instance. *)
Theorem parse_last_line_both {U : Unicode} :
  (forall text method : str,
     any_pattern_in patterns_1 (lower text) = false ->
     any_pattern_in patterns_0 (lower text) = false ->
     line_says_1 (strip (last (split (strip (lower text)) [LF]) [])) = true ->
     line_says_0 (strip (last (split (strip (lower text)) [LF]) [])) = true ->
     parse_prompt_response text method = 1%Z /\
     parse_prompt_response text method <> 0%Z) /\
  (startswith (lit "1 vs 0") (lit "1 ") = true /\
   endswith (lit "1 vs 0") (lit " 0") = true /\
   forall method : str, parse_prompt_response (lit "1 vs 0") method = 1%Z).
Proof.
  split.
  - intros text method H1 H0 Hl1 _.
    rewrite (parse_last_line_1 text method H1 H0 Hl1).
    split; [reflexivity | discriminate].
  - split; [reflexivity | split; [reflexivity |]].
    intros method. now rewrite parse_prompt_response_ascii.
Qed.

Lemma parse_last_line_both_witness :
  line_says_1 (strip (U:=ascii_unicode)
     (last (split (strip (U:=ascii_unicode) (@lower ascii_unicode two_lines)) [LF]) [])) = true /\
  line_says_0 (strip (U:=ascii_unicode)
     (last (split (strip (U:=ascii_unicode) (@lower ascii_unicode two_lines)) [LF]) [])) = true /\
  parse_prompt_response (U:=ascii_unicode) two_lines few_shot = 1%Z.
Proof.
  split; [reflexivity | split; [reflexivity |]].
  apply (proj1 (parse_last_line_both (U:=ascii_unicode)) two_lines few_shot);
    reflexivity.
Defined.

(** C10.  A text whose lower-casing contains "clickbait" never parses to
    UNKNOWN: the result is 0 or 1. *)
Theorem parse_clickbait_never_unknown {U : Unicode} (text method : str) :
  str_in (lit "clickbait") (lower text) = true ->
  parse_prompt_response text method <> UNKNOWN /\
  (parse_prompt_response text method = 0%Z \/
   parse_prompt_response text method = 1%Z).
Proof.
  intros Hc.
  assert (H : parse_prompt_response text method = 0%Z \/
              parse_prompt_response text method = 1%Z).
  { unfold parse_prompt_response.
    destruct (any_pattern_in patterns_1 (lower text)); [now right |].
    destruct (any_pattern_in patterns_0 (lower text)); [now left |].
    destruct (scan_lines _) as [v|] eqn:E; [exact (scan_lines_label _ E) |].
    rewrite Hc.
    destruct (str_in (lit "no-clickbait") (lower text));
      destruct (str_in (lit "not clickbait") (lower text)); simpl; tauto. }
  split; [| exact H].
  unfold UNKNOWN. destruct H as [-> | ->]; discriminate.
Qed.

Lemma parse_clickbait_never_unknown_witness :
  str_in (lit "clickbait") (@lower ascii_unicode (lit "Pure Clickbait, I would say")) = true /\
  parse_prompt_response (U:=ascii_unicode)
    (lit "Pure Clickbait, I would say") few_shot <> UNKNOWN.
Proof.
  split; [reflexivity |].
  apply (parse_clickbait_never_unknown (U:=ascii_unicode)
           (lit "Pure Clickbait, I would say") few_shot).
  reflexivity.
Defined.

(** ** [split] and its last piece *)

Lemma split_from_skip (sep : str) :
  forall (k : nat) (s cur : str), k <= length s ->
  split_from sep k cur s = split_from sep 0 cur (skipn k s).
Proof.
  induction k as [|k IH]; intros s cur Hk; [reflexivity |].
  destruct s as [|c s]; simpl in *; [lia |].
  apply IH. lia.
Qed.

Lemma last_cons_nonempty (x : str) (l : list str) :
  l <> [] -> last (x :: l) [] = last l [].
Proof. destruct l; [congruence | reflexivity]. Qed.

Section LastPiece.

Variable sep : str.
Hypothesis sep_nonempty : sep <> [].

Lemma str_in_nil : str_in sep [] = false.
Proof. destruct sep; [congruence | reflexivity]. Qed.

(** Either the separator does not occur and [split] returns the text whole,
    or the last piece is what follows an occurrence of the separator and has
    no occurrence of its own. *)
Lemma last_split_from (n : nat) :
  forall s cur : str, length s <= n ->
  (str_in sep s = false /\ last (split_from sep 0 cur s) [] = rev cur ++ s) \/
  (exists before,
     s = before ++ sep ++ last (split_from sep 0 cur s) [] /\
     str_in sep (last (split_from sep 0 cur s) []) = false).
Proof.
  induction n as [|n IH]; intros s cur Hn.
  - destruct s; [| simpl in Hn; lia].
    left. split; [apply str_in_nil | simpl; now rewrite app_nil_r].
  - destruct s as [|c s].
    { left. split; [apply str_in_nil | simpl; now rewrite app_nil_r]. }
    simpl in Hn. cbn [split_from].
    destruct (startswith (c :: s) sep) eqn:E.
    + apply startswith_iff in E as [rest E].
      destruct sep as [|a sep'] eqn:Hsep; [congruence |].
      injection E as -> ->.
      replace (length (a :: sep') - 1) with (length sep') by (simpl; lia).
      rewrite split_from_skip by (rewrite length_app; lia).
      rewrite skipn_app, skipn_all, Nat.sub_diag. simpl skipn. rewrite app_nil_l.
      rewrite last_cons_nonempty by apply split_from_nonempty.
      rewrite length_app in Hn.
      destruct (IH rest [] ltac:(lia)) as [[Hno Hp] | [before [Hs Hp]]].
      * right. exists []. simpl in Hp. rewrite Hp. split; [reflexivity | exact Hno].
      * right. exists (a :: sep' ++ before). split; [| exact Hp].
        rewrite Hs at 1. simpl. now rewrite <- app_assoc.
    + destruct (IH s (c :: cur) ltac:(lia)) as [[Hno Hp] | [before [Hs Hp]]].
      * left. split.
        -- simpl. now rewrite E, Hno.
        -- rewrite Hp. simpl. now rewrite <- app_assoc.
      * right. exists (c :: before). split; [| exact Hp].
        rewrite Hs at 1. reflexivity.
Qed.

Lemma last_piece_split (s : str) :
  str_in sep s = true ->
  exists before,
    s = before ++ sep ++ last_piece (split s sep) /\
    str_in sep (last_piece (split s sep)) = false.
Proof.
  intros H. unfold last_piece, split.
  destruct (@last_split_from (length s) s [] (le_n _)) as [[Hno _] | Hex].
  - congruence.
  - exact Hex.
Qed.

End LastPiece.

(** ** The single-item classifier *)

(** "answer:" cannot overlap itself, so a piece that follows an occurrence
    and has none of its own follows the last occurrence. *)
Lemma answer_last_occurrence (s before piece a b : str) :
  s = before ++ ANSWER ++ piece ->
  str_in ANSWER piece = false ->
  s = a ++ ANSWER ++ b ->
  length a <= length before.
Proof.
  intros Hs Hno Ha.
  destruct (Nat.le_gt_cases (length a) (length before)) as [|Hlt]; [assumption |].
  exfalso. rewrite Hs in Ha.
  apply app_eq_app in Ha as [x [[Hb _] | [Hx H]]].
  - rewrite Hb, length_app in Hlt. lia.
  - rewrite Hx, length_app in Hlt.
    destruct x as [|x0 x]; [simpl in Hlt; lia |].
    clear - Hno H. cbv in H.
    injection H as _ H.
    do 6 (destruct x as [|? x]; [discriminate H | injection H as _ H]).
    assert (Hin : str_in ANSWER piece = true).
    { apply str_in_iff. exists x, b. exact H. }
    congruence.
Qed.

Section ClassifierFacts.

Context {U : Unicode}.

Lemma simple_parsing_answer (response_text : str) :
  str_in ANSWER (lower response_text) = true ->
  exists before answer_part : str,
    lower response_text = before ++ ANSWER ++ answer_part /\
    (forall a b, lower response_text = a ++ ANSWER ++ b -> length a <= length before) /\
    simple_parsing response_text =
      if str_in (lit "1") (slice_to 5 answer_part) then Some 1%Z
      else if str_in (lit "0") (slice_to 5 answer_part) then Some 0%Z
      else None.
Proof.
  intros H.
  assert (Hne : ANSWER <> []) by discriminate.
  destruct (last_piece_split Hne _ H) as [before [Hs Hno]].
  exists before, (last_piece (split (lower response_text) ANSWER)).
  split; [exact Hs | split].
  - intros a b. exact (@answer_last_occurrence _ _ _ a b Hs Hno).
  - unfold simple_parsing. fold ANSWER. now rewrite H.
Qed.

Lemma few_shot_prompting_success
    (env : option str) (client : Client) (title content : str)
    (others : list (option str)) :
  client (chat_request env (few_shot_prompt title))
    = Returned {| choices := Some content :: others |} ->
  few_shot_prompting env client title =
    ([], Returned match simple_parsing (strip content) with
                  | Some label => label
                  | None => parse_prompt_response (strip content) few_shot
                  end).
Proof.
  intros H. unfold few_shot_prompting. rewrite H. simpl.
  now destruct (simple_parsing (strip content)).
Qed.

Lemma simple_parsing_ascii (response_text : str) :
  ascii_text response_text ->
  simple_parsing response_text = simple_parsing (U:=ascii_unicode) response_text.
Proof.
  intros H. unfold simple_parsing.
  now destruct (lower_ascii_text H) as [-> _].
Qed.

End ClassifierFacts.

(** C4.  When the stripped reply contains "answer:" in any letter case, the
    classifier looks at the first 5 characters of what follows the last
    occurrence of "answer:" in the lower-cased reply.  If '1' is among them
    it returns 1 at once; failing that, if '0' is among them it returns 0;
    only when neither digit is there does it return what the label parser
    returns on the reply.  The reply "Answer: 0" gives 0. *)
Theorem few_shot_prompting_fast_path {U : Unicode}
    (env : option str) (client : Client) (title : str) :
  (forall (content : str) (others : list (option str)),
     client (chat_request env (few_shot_prompt title))
       = Returned {| choices := Some content :: others |} ->
     str_in (lit "answer:") (lower (strip content)) = true ->
     exists before answer_part : str,
       lower (strip content) = before ++ lit "answer:" ++ answer_part /\
       (forall a b, lower (strip content) = a ++ lit "answer:" ++ b ->
                    length a <= length before) /\
       few_shot_prompting env client title =
         ([], Returned
                (if str_in (lit "1") (slice_to 5 answer_part) then 1%Z
                 else if str_in (lit "0") (slice_to 5 answer_part) then 0%Z
                 else parse_prompt_response (strip content) few_shot))) /\
  (forall others : list (option str),
     client (chat_request env (few_shot_prompt title))
       = Returned {| choices := Some (lit "Answer: 0") :: others |} ->
     few_shot_prompting env client title = ([], Returned 0%Z)).
Proof.
  split.
  - intros content others Hc Hin.
    destruct (simple_parsing_answer _ Hin) as [before [part [Hs [Hlast Hp]]]].
    exists before, part. split; [exact Hs | split; [exact Hlast |]].
    rewrite (few_shot_prompting_success _ _ _ Hc), Hp.
    destruct (str_in (lit "1") (slice_to 5 part)); [reflexivity |].
    now destruct (str_in (lit "0") (slice_to 5 part)).
  - intros others Hc.
    rewrite (few_shot_prompting_success _ _ _ Hc).
    assert (A : ascii_text (lit "Answer: 0")) by reflexivity.
    destruct (strip_ascii A) as [-> A'].
    now rewrite (simple_parsing_ascii A').
Qed.

Lemma few_shot_prompting_fast_path_witness :
  (str_in (lit "answer:")
     (@lower ascii_unicode (strip (U:=ascii_unicode) (lit "My answer: maybe"))) = true /\
   exists before answer_part : str,
     @lower ascii_unicode (strip (U:=ascii_unicode) (lit "My answer: maybe"))
       = before ++ lit "answer:" ++ answer_part /\
     few_shot_prompting (U:=ascii_unicode) None (replying (lit "My answer: maybe"))
       (lit "Rates up") =
       ([], Returned
              (if str_in (lit "1") (slice_to 5 answer_part) then 1%Z
               else if str_in (lit "0") (slice_to 5 answer_part) then 0%Z
               else parse_prompt_response (U:=ascii_unicode)
                      (strip (U:=ascii_unicode) (lit "My answer: maybe")) few_shot))) /\
  few_shot_prompting (U:=ascii_unicode) None (replying (lit "Answer: 0"))
    (lit "Federal Reserve raises interest rates by 0.5%") = ([], Returned 0%Z).
Proof.
  split; [split; [reflexivity |] |].
  - destruct (proj1 (few_shot_prompting_fast_path (U:=ascii_unicode) None
                       (replying (lit "My answer: maybe")) (lit "Rates up"))
                    (lit "My answer: maybe") [] eq_refl eq_refl)
      as [before [answer_part [H1 [_ H2]]]].
    exists before, answer_part. split; assumption.
  - apply (proj2 (few_shot_prompting_fast_path (U:=ascii_unicode) None
                    (replying (lit "Answer: 0"))
                    (lit "Federal Reserve raises interest rates by 0.5%")) []).
    reflexivity.
Defined.

(** The test for '1' comes first: in the reply "Answer: 0 (1 would be
    clickbait)" the first 5 characters after "answer:" are " 0 (1", and the
    classifier returns 1. *)
Lemma fast_path_looks_for_1_first :
  slice_to 5 (last_piece (split
     (@lower ascii_unicode (strip (U:=ascii_unicode) (lit "Answer: 0 (1 would be clickbait)")))
     (lit "answer:"))) = lit " 0 (1" /\
  few_shot_prompting (U:=ascii_unicode) None
    (replying (lit "Answer: 0 (1 would be clickbait)"))
    (lit "Federal Reserve raises interest rates by 0.5%") = ([], Returned 1%Z).
Proof. vm_compute. repeat split. Qed.

(** C7.  Whatever [Exception] the model client raises, the classifier
    prints one error line naming it and returns UNKNOWN (-1); the same
    holds for a response without choices and for one whose content is
    [None].  No run of the classifier ends by raising an [Exception]. *)
Theorem few_shot_prompting_catches {U : Unicode}
    (env : option str) (client : Client) (title : str) :
  (forall e : exception,
     client (chat_request env (few_shot_prompt title)) = Raised (Exception e) ->
     few_shot_prompting env client title =
       ([PrintErrorInFewShotPrompting e], Returned (-1)%Z)) /\
  (client (chat_request env (few_shot_prompt title)) = Returned {| choices := [] |} ->
   few_shot_prompting env client title =
     ([PrintErrorInFewShotPrompting IndexError], Returned (-1)%Z)) /\
  (forall others : list (option str),
     client (chat_request env (few_shot_prompt title))
       = Returned {| choices := None :: others |} ->
     few_shot_prompting env client title =
       ([PrintErrorInFewShotPrompting AttributeError], Returned (-1)%Z)) /\
  (forall (out : list event) (e : exception),
     few_shot_prompting env client title <> (out, Raised (Exception e))).
Proof.
  unfold few_shot_prompting. repeat split.
  - intros e H. now rewrite H.
  - intros H. now rewrite H.
  - intros others H. now rewrite H.
  - intros out e.
    destruct (client _) as [[[|[content|] others]] | [e' |]]; simpl;
      try discriminate.
    destruct (simple_parsing (strip content)); discriminate.
Qed.

Lemma few_shot_prompting_catches_witness :
  few_shot_prompting (U:=ascii_unicode) None timing_out (lit "Rates up") =
    ([PrintErrorInFewShotPrompting (ClientError (lit "Request timed out."))],
     Returned UNKNOWN).
Proof.
  apply (proj1 (few_shot_prompting_catches (U:=ascii_unicode) None timing_out (lit "Rates up"))).
  reflexivity.
Defined.

(** ** The metrics aggregator *)

Lemma filter_all_unknown (l : list Z) :
  Forall (fun pred => pred = UNKNOWN) l ->
  forall start : nat,
  filter (fun ip : nat * Z => negb (snd ip =? -1)%Z) (combine (seq start (length l)) l) = [].
Proof.
  induction 1 as [|pred l Hp _ IH]; intros start; simpl; [reflexivity |].
  rewrite Hp. simpl. apply IH.
Qed.

Lemma valid_indices_all_unknown (predictions : list Z) :
  Forall (fun pred => pred = UNKNOWN) predictions ->
  valid_indices_of predictions = [].
Proof.
  intros H. unfold valid_indices_of, enumerate.
  now rewrite filter_all_unknown.
Qed.

(** C5.  On predictions [1,0,1,UNKNOWN,0] and true labels [1,0,0,1,0] the
    aggregator keeps the indices 0, 1, 2 and 4, hands the metric functions
    the pair [1,0,1,0] and [1,0,0,0], and returns a summary with
    [valid_samples] 4, [total_samples] 5 and accuracy 3/4 = 0.75. *)
Theorem calculate_metrics_example {SK : Sklearn} (method_name : str) :
  let predictions := [1; 0; 1; UNKNOWN; 0]%Z in
  let true_labels := [1; 0; 0; 1; 0]%Z in
  let valid_predictions := [1; 0; 1; 0]%Z in
  let valid_true_labels := [1; 0; 0; 0]%Z in
  valid_indices_of predictions = [0; 1; 2; 4] /\
  comprehension (getitem predictions) (valid_indices_of predictions)
    = ret valid_predictions /\
  comprehension (getitem true_labels) (valid_indices_of predictions)
    = ret valid_true_labels /\
  exists (summary : MetricsSummary) (report : str),
    calculate_metrics predictions true_labels method_name
      = ([PrintResults summary report], Returned (Some summary)) /\
    valid_samples summary = 4 /\
    total_samples summary = 5 /\
    accuracy summary = accuracy_score valid_true_labels valid_predictions /\
    (accuracy summary == 0.75)%Q /\
    precision_macro summary = precision_score valid_true_labels valid_predictions macro /\
    recall_macro summary = recall_score valid_true_labels valid_predictions macro /\
    f1_macro summary = f1_score valid_true_labels valid_predictions macro /\
    precision_weighted summary = precision_score valid_true_labels valid_predictions weighted /\
    recall_weighted summary = recall_score valid_true_labels valid_predictions weighted /\
    f1_weighted summary = f1_score valid_true_labels valid_predictions weighted.
Proof.
  cbv zeta. split; [reflexivity | split; [reflexivity | split; [reflexivity |]]].
  eexists. eexists. split; [reflexivity |].
  repeat split.
Qed.

(** C6.  When every prediction is UNKNOWN the aggregator prints that there
    are no valid predictions and returns [None], whatever the true labels
    and the metric functions are: no summary is built. *)
Theorem calculate_metrics_all_unknown {SK : Sklearn}
    (predictions true_labels : list Z) (method_name : str) :
  Forall (fun pred => pred = UNKNOWN) predictions ->
  calculate_metrics predictions true_labels method_name
    = ([PrintNoValidPredictions method_name], Returned None).
Proof.
  intros H. unfold calculate_metrics.
  now rewrite (valid_indices_all_unknown H).
Qed.

Lemma calculate_metrics_all_unknown_witness :
  calculate_metrics (SK:=Reference.sklearn)
    [UNKNOWN; UNKNOWN; UNKNOWN] [1; 0; 1]%Z few_shot
    = ([PrintNoValidPredictions few_shot], Returned None).
Proof.
  apply (calculate_metrics_all_unknown (SK:=Reference.sklearn)).
  repeat constructor.
Defined.

(** ** The evaluation loop *)

Lemma quiet_app (a b : list event) : quiet a -> quiet b -> quiet (a ++ b).
Proof. unfold quiet. rewrite existsb_app. now intros -> ->. Qed.

Lemma few_shot_prompting_quiet {U : Unicode}
    (env : option str) (client : Client) (title : str) :
  quiet (fst (few_shot_prompting env client title)).
Proof.
  unfold few_shot_prompting.
  destruct (client _) as [[[|[content|] others]] | [e |]]; simpl; try reflexivity.
  now destruct (simple_parsing (strip content)).
Qed.

Section LoopFacts.

Context {U : Unicode} {SK : Sklearn}.

Variable w : World.

(** One iteration, spelled out. *)
Lemma evaluate_items_step (total : nat) (delay : Q) (i : nat)
    (item : Sample) (rest : list Sample) (ps ts : list Z) :
  evaluate_items w total delay i (item :: rest) (ps, ts) =
  let progress := PrintProgress (i + 1) total (slice_to 60 (title item)) in
  match few_shot_prompting (OPENAI_MODEL w) (client_call w i) (title item) with
  | (out, Raised e) => (progress :: out, (ps, ts), Raised e)
  | (out, Returned prediction) =>
      let line :=
        if negb (prediction =? -1)%Z
        then PrintPrediction prediction (label_name_of prediction)
        else PrintResponseParsingError in
      let lists := (ps ++ [prediction], ts ++ [label item]) in
      match time_sleep w i delay with
      | Raised e => (progress :: out ++ [line], lists, Raised e)
      | Returned _ =>
          match evaluate_items w total delay (S i) rest lists with
          | (out', lists', o) => (progress :: out ++ line :: out', lists', o)
          end
      end
  end.
Proof.
  cbn [evaluate_items]. unfold loop_bind, lift. cbn [print fst snd app].
  destruct (few_shot_prompting _ _ _) as [out [prediction | e]]; cbn [fst snd];
    [| reflexivity].
  unfold predictions_append, true_labels_append. cbn [fst snd app].
  destruct (negb (prediction =? -1)%Z); cbn [print fst snd external app];
    (destruct (time_sleep w i delay) as [[] | e]; cbn [app];
     [ destruct (evaluate_items _ _ _ _ _ _) as [[out' lists'] o] | ];
     reflexivity).
Qed.

(** However the loop ends, the two lists have grown together: by one
    prediction and by the true label of the sample, for each of the first
    [k] samples; and none of the lines printed is a metrics report. *)
Lemma evaluate_items_aligned (total : nat) (delay : Q) (data : list Sample) :
  forall (i : nat) (ps ts : list Z) (out : list event) (ps' ts' : list Z)
         (o : outcome unit),
  evaluate_items w total delay i data (ps, ts) = (out, (ps', ts'), o) ->
  quiet out /\
  exists new : list Z,
    length new <= length data /\
    ps' = ps ++ new /\
    ts' = ts ++ map label (firstn (length new) data).
Proof.
  induction data as [|item rest IH]; intros i ps ts out ps' ts' o.
  - cbn. intros [= <- <- <- <-]. split; [reflexivity |].
    exists []. now rewrite !app_nil_r.
  - rewrite evaluate_items_step. cbv zeta.
    pose proof (few_shot_prompting_quiet (OPENAI_MODEL w) (client_call w i) (title item)) as Hq.
    destruct (few_shot_prompting _ _ _) as [out1 [prediction | e]]; cbn [fst] in Hq.
    + assert (Hline : quiet [if negb (prediction =? -1)%Z
                             then PrintPrediction prediction (label_name_of prediction)
                             else PrintResponseParsingError])
        by (now destruct (negb (prediction =? -1)%Z)).
      destruct (time_sleep w i delay) as [[] | e].
      * destruct (evaluate_items _ _ _ _ _ _) as [[out' [ps'' ts'']] o'] eqn:E.
        intros [= <- <- <- <-].
        destruct (IH _ _ _ _ _ _ _ E) as [Hq' [new [Hlen [-> ->]]]].
        split.
        { apply (@quiet_app [_]); [reflexivity |].
          apply quiet_app; [exact Hq |].
          now apply (@quiet_app [_]). }
        exists (prediction :: new). cbn [length firstn map].
        split; [lia |]. now rewrite <- !app_assoc.
      * intros [= <- <- <- <-]. split.
        { apply (@quiet_app [_]); [reflexivity |]. now apply quiet_app. }
        exists [prediction]. cbn [length firstn map]. split; [lia | now split].
    + intros [= <- <- <- <-]. split.
      { now apply (@quiet_app [_]). }
      exists []. cbn. split; [lia |]. now rewrite !app_nil_r.
Qed.

Lemma evaluate_few_shot_frame_aligned (data : list Sample) (delay : Q)
    (out : list event) (predictions true_labels : list Z) (o : outcome unit) :
  evaluate_few_shot_frame w data delay = (out, (predictions, true_labels), o) ->
  quiet out /\
  length predictions <= length data /\
  length predictions = length true_labels /\
  true_labels = map label (firstn (length predictions) data).
Proof.
  unfold evaluate_few_shot_frame, loop_bind, lift. cbn [print fst snd app].
  destruct (evaluate_items _ _ _ _ _ _) as [[out' [ps ts]] o'] eqn:E.
  destruct (evaluate_items_aligned _ _ _ _ _ _ E) as [Hq [new [Hlen [-> ->]]]].
  intros [= <- <- <- <-]. cbn [app].
  repeat split; try assumption.
  rewrite length_map, length_firstn. lia.
Qed.

End LoopFacts.

(** C8 (as amended).  When a [KeyboardInterrupt] stops the evaluation loop
    early, the two lists collected up to then have the same length and the
    true labels are those of the first samples, in order; the interrupt
    leaves [evaluate_few_shot_method], the run prints "Stopped by user" and
    returns, and nothing the metrics aggregator prints appears in its
    output: the aggregator is not called on the collected data. *)
Theorem interrupt_stops_without_metrics {U : Unicode} {SK : Sklearn}
    (w : World) (data_limit : nat)
    (out : list event) (predictions true_labels : list Z) :
  let test_data :=
    load_evaluation_data w (lit "../../shared/data/test/data.jsonl") data_limit in
  evaluate_few_shot_frame w test_data 1
    = (out, (predictions, true_labels), Raised KeyboardInterrupt) ->
  length predictions = length true_labels /\
  true_labels = map label (firstn (length predictions) test_data) /\
  run_few_shot_evaluation w data_limit =
    (PrintEvaluationBanner :: PrintLoadedTestSamples (length test_data)
       :: out ++ [PrintStoppedByUser],
     Returned tt) /\
  existsb is_metrics_report (fst (run_few_shot_evaluation w data_limit)) = false.
Proof.
  intros test_data H.
  destruct (evaluate_few_shot_frame_aligned _ _ _ H) as [Hq [_ [Hlen Hlab]]].
  assert (Hrun : run_few_shot_evaluation w data_limit =
                 (PrintEvaluationBanner :: PrintLoadedTestSamples (length test_data)
                    :: out ++ [PrintStoppedByUser], Returned tt)).
  { unfold run_few_shot_evaluation. fold test_data.
    destruct test_data as [|item rest] eqn:Hdata.
    - cbv in H. discriminate H.
    - unfold evaluate_few_shot_method. rewrite H. reflexivity. }
  repeat split; try assumption.
  rewrite Hrun. cbn [fst existsb is_metrics_report orb].
  rewrite existsb_app. unfold quiet in Hq. now rewrite Hq.
Qed.

Lemma interrupt_stops_without_metrics_witness :
  run_few_shot_evaluation (U:=ascii_unicode) (SK:=Reference.sklearn) interrupted_world 20 =
    ([PrintEvaluationBanner; PrintLoadedTestSamples 2; PrintEvaluatingBanner;
      PrintProgress 1 2 (lit "You won't believe this");
      PrintPrediction 1 (lit "Clickbait");
      PrintStoppedByUser],
     Returned tt).
Proof.
  refine (proj1 (proj2 (proj2
    (@interrupt_stops_without_metrics ascii_unicode Reference.sklearn
       interrupted_world 20
       [PrintEvaluatingBanner;
        PrintProgress 1 2 (lit "You won't believe this");
        PrintPrediction 1 (lit "Clickbait")]
       [1%Z] [1%Z] _)))).
  reflexivity.
Defined.

(** C8 as stated fails: interrupted during the pause after the second of
    three samples, the loop has collected the predictions [1, 0] beside the
    true labels [1, 0].  Called on them the aggregator returns a summary and
    prints its report, both classes being there; but the run calls nothing
    on them: it prints no line of the aggregator and ends with "Stopped by
    user". *)
Lemma interrupt_reports_nothing :
  evaluate_few_shot_frame (U:=ascii_unicode) late_interrupt_world three_samples 1
    = ([PrintEvaluatingBanner;
        PrintProgress 1 3 (lit "You won't believe this");
        PrintPrediction 1 (lit "Clickbait");
        PrintProgress 2 3 (lit "Rates up");
        PrintPrediction 0 (lit "No-clickbait")],
       ([1%Z; 0%Z], [1%Z; 0%Z]), Raised KeyboardInterrupt) /\
  calculate_metrics (SK:=Reference.sklearn) [1%Z; 0%Z] [1%Z; 0%Z] few_shot
    = ([PrintResults
          (summary_of (SK:=Reference.sklearn) few_shot [1%Z; 0%Z] [1%Z; 0%Z] 2) []],
       Returned
         (Some (summary_of (SK:=Reference.sklearn) few_shot [1%Z; 0%Z] [1%Z; 0%Z] 2))) /\
  existsb is_metrics_report
    (fst (run_few_shot_evaluation (U:=ascii_unicode) (SK:=Reference.sklearn)
            late_interrupt_world 20)) = false /\
  run_few_shot_evaluation (U:=ascii_unicode) (SK:=Reference.sklearn)
    late_interrupt_world 20 =
    ([PrintEvaluationBanner; PrintLoadedTestSamples 3; PrintEvaluatingBanner;
      PrintProgress 1 3 (lit "You won't believe this");
      PrintPrediction 1 (lit "Clickbait");
      PrintProgress 2 3 (lit "Rates up");
      PrintPrediction 0 (lit "No-clickbait");
      PrintStoppedByUser],
     Returned tt).
Proof. vm_compute. repeat split. Qed.

(** * Further properties of the code *)

(** ** The label parser *)

Lemma parse_prompt_response_is_prediction {U : Unicode} (text method : str) :
  is_prediction (parse_prompt_response text method).
Proof.
  unfold is_prediction, parse_prompt_response.
  destruct (any_pattern_in patterns_1 (lower text)); [tauto |].
  destruct (any_pattern_in patterns_0 (lower text)); [tauto |].
  destruct (scan_lines _) as [v|] eqn:E.
  - destruct (scan_lines_label _ E); tauto.
  - destruct (_ && _); [tauto |]. destruct (_ || _); tauto.
Qed.

(** X1.  The parser returns 0, 1 or -1 on every text: whatever the reply,
    a caller has only these three values to handle. *)
Theorem parse_prompt_response_range {U : Unicode} (text method : str) :
  parse_prompt_response text method = 0%Z \/
  parse_prompt_response text method = 1%Z \/
  parse_prompt_response text method = (-1)%Z.
Proof.
  unfold parse_prompt_response, UNKNOWN.
  destruct (any_pattern_in patterns_1 (lower text)); [tauto |].
  destruct (any_pattern_in patterns_0 (lower text)); [tauto |].
  destruct (scan_lines _) as [v|] eqn:E.
  - destruct (scan_lines_label _ E); tauto.
  - destruct (_ && _); [tauto |]. destruct (_ || _); tauto.
Qed.

(** X2.  On ASCII text the parser does not see letter case, nor its second
    argument: two texts with the same lower-casing parse alike. *)
Theorem parse_prompt_response_ignores_case {U : Unicode}
    (text1 text2 method1 method2 : str) :
  ascii_text text1 -> ascii_text text2 ->
  map ascii_lower text1 = map ascii_lower text2 ->
  parse_prompt_response text1 method1 = parse_prompt_response text2 method2.
Proof.
  intros A1 A2 E. unfold parse_prompt_response.
  now rewrite (lower_ascii text1 A1), (lower_ascii text2 A2), E.
Qed.

Lemma parse_prompt_response_ignores_case_witness :
  parse_prompt_response (U:=ascii_unicode) (lit "FINAL: 0") few_shot =
  parse_prompt_response (U:=ascii_unicode) (lit "Final: 0") [].
Proof.
  apply (parse_prompt_response_ignores_case (U:=ascii_unicode)); reflexivity.
Defined.

Lemma scan_lines_skip {U : Unicode} (skipped rest : list str) :
  Forall (no_match_line U) skipped ->
  scan_lines (skipped ++ rest) = scan_lines rest.
Proof.
  induction 1 as [|line l [H1 H0] _ IH]; simpl; [reflexivity |].
  now rewrite H1, H0.
Qed.

(** X3.  In the line-based fallback the last line that passes a test
    decides, whatever the lines above it say: with no explicit marker in the
    text, if the lines below [line] pass no test and [line] passes one, the
    result is 1 when [line] passes a test for 1 and 0 otherwise. *)
Theorem parse_last_matching_line {U : Unicode}
    (text method : str) (above below : list str) (line : str) :
  any_pattern_in patterns_1 (lower text) = false ->
  any_pattern_in patterns_0 (lower text) = false ->
  split (strip (lower text)) [LF] = above ++ line :: below ->
  Forall (no_match_line U) below ->
  line_says_1 (strip line) = true \/ line_says_0 (strip line) = true ->
  parse_prompt_response text method =
    if line_says_1 (strip line) then 1%Z else 0%Z.
Proof.
  intros H1 H0 Hs Hbelow Hline. unfold parse_prompt_response.
  rewrite H1, H0, Hs, rev_app_distr. cbn [rev]. rewrite <- app_assoc.
  rewrite scan_lines_skip by (now apply Forall_rev).
  cbn [app scan_lines].
  destruct (line_says_1 (strip line)); [reflexivity |].
  destruct Hline as [Hl | Hl]; [discriminate | now rewrite Hl].
Qed.

(** A reply of three lines: a line ending in " 1", a line ending in " 0",
    and a closing line that passes no test. *)
Lemma parse_last_matching_line_witness :
  parse_prompt_response (U:=ascii_unicode)
    (lit "option 1" ++ [LF] ++ lit "I choose 0" ++ [LF] ++ lit "thanks") few_shot = 0%Z.
Proof.
  apply (@parse_last_matching_line ascii_unicode
           (lit "option 1" ++ [LF] ++ lit "I choose 0" ++ [LF] ++ lit "thanks") few_shot
           [lit "option 1"] [lit "thanks"] (lit "i choose 0")).
  - reflexivity.
  - reflexivity.
  - reflexivity.
  - repeat constructor.
  - right. reflexivity.
Defined.

Lemma str_in_chars (p s : str) (c : char) :
  str_in p s = true -> In c p -> In c s.
Proof.
  intros H Hc. apply str_in_iff in H as [before [after ->]].
  apply in_or_app. right. apply in_or_app. now left.
Qed.

Lemma patterns_1_have_1 (pattern : str) :
  In pattern patterns_1 -> In 49%N pattern.
Proof.
  unfold patterns_1. cbn [map]. intros H.
  repeat (destruct H as [<- | H]; [cbv; tauto |]). destruct H.
Qed.

Lemma patterns_0_have_0 (pattern : str) :
  In pattern patterns_0 -> In 48%N pattern.
Proof.
  unfold patterns_0. cbn [map]. intros H.
  repeat (destruct H as [<- | H]; [cbv; tauto |]). destruct H.
Qed.

Lemma no_pattern_without_char (patterns : list str) (c : char) (text : str) :
  (forall pattern, In pattern patterns -> In c pattern) ->
  ~ In c text ->
  any_pattern_in patterns text = false.
Proof.
  intros Hp Hc. destruct (any_pattern_in patterns text) eqn:E; [| reflexivity].
  apply existsb_exists in E as [pattern [Hin Hs]].
  exfalso. apply Hc. exact (str_in_chars _ _ c Hs (Hp _ Hin)).
Qed.

Section StripFacts.

Context {U : Unicode}.

Lemma lstrip_decompose (s : str) :
  exists ws, s = ws ++ lstrip s /\ Forall (fun c => isspace c = true) ws.
Proof.
  induction s as [|c s [ws [E F]]]; simpl.
  - now exists [].
  - destruct (isspace c) eqn:Hc.
    + exists (c :: ws). split; [simpl; now rewrite <- E | now constructor].
    + now exists [].
Qed.

Lemma strip_decompose (s : str) :
  exists ws1 ws2,
    s = ws1 ++ strip s ++ ws2 /\
    Forall (fun c => isspace c = true) ws1 /\
    Forall (fun c => isspace c = true) ws2.
Proof.
  destruct (lstrip_decompose s) as [ws1 [E1 F1]].
  destruct (lstrip_decompose (rev (lstrip s))) as [ws2 [E2 F2]].
  exists ws1, (rev ws2). repeat split; [| assumption | now apply Forall_rev].
  unfold strip, rstrip. rewrite <- rev_app_distr, <- E2, rev_involutive.
  exact E1.
Qed.

(** A digit is not whitespace, so it occurs in a text only if it occurs in
    the stripped text. *)
Lemma digit_in_stripped (s : str) (c : char) :
  is_ascii c = true -> ascii_isspace c = false ->
  In c s -> In c (strip s).
Proof.
  intros Ha Hs Hin.
  destruct (strip_decompose s) as [ws1 [ws2 [E [F1 F2]]]].
  rewrite E in Hin.
  assert (Hno : forall ws, Forall (fun c => isspace c = true) ws -> ~ In c ws).
  { intros ws F Hc. rewrite Forall_forall in F. specialize (F c Hc).
    rewrite (isspace_ascii c Ha) in F. congruence. }
  apply in_app_or in Hin as [Hin | Hin]; [now apply Hno in Hin |].
  apply in_app_or in Hin as [Hin | Hin]; [assumption | now apply Hno in Hin].
Qed.

End StripFacts.

(** X4.  A text that is a bare digit once lower-cased and stripped parses to
    that digit: whitespace around the digit, newlines included, changes
    nothing. *)
Theorem parse_bare_digit {U : Unicode} (text method : str) :
  (strip (lower text) = lit "1" -> parse_prompt_response text method = 1%Z) /\
  (strip (lower text) = lit "0" -> parse_prompt_response text method = 0%Z).
Proof.
  assert (S1 : strip (lit "1") = lit "1")
    by (now destruct (strip_ascii (s:=lit "1") eq_refl) as [-> _]).
  assert (S0 : strip (lit "0") = lit "0")
    by (now destruct (strip_ascii (s:=lit "0") eq_refl) as [-> _]).
  split; intros H; unfold parse_prompt_response.
  - destruct (any_pattern_in patterns_1 (lower text)); [reflexivity |].
    rewrite (no_pattern_without_char patterns_0 48%N).
    + rewrite H. change (rev (split (lit "1") [LF])) with [lit "1"].
      cbn [scan_lines]. now rewrite S1.
    + exact patterns_0_have_0.
    + intros Hin. apply (digit_in_stripped (lower text) 48%N) in Hin; try reflexivity.
      rewrite H in Hin. cbv in Hin. intuition discriminate.
  - rewrite (no_pattern_without_char patterns_1 49%N).
    + destruct (any_pattern_in patterns_0 (lower text)); [reflexivity |].
      rewrite H. change (rev (split (lit "0") [LF])) with [lit "0"].
      cbn [scan_lines]. now rewrite S0.
    + exact patterns_1_have_1.
    + intros Hin. apply (digit_in_stripped (lower text) 49%N) in Hin; try reflexivity.
      rewrite H in Hin. cbv in Hin. intuition discriminate.
Qed.

Lemma parse_bare_digit_witness :
  parse_prompt_response (U:=ascii_unicode) ([LF; SPACE] ++ lit "1" ++ [SPACE; LF; 9%N]) few_shot = 1%Z /\
  parse_prompt_response (U:=ascii_unicode) ([9%N] ++ lit "0" ++ [LF; LF]) few_shot = 0%Z.
Proof.
  split.
  - apply (proj1 (parse_bare_digit (U:=ascii_unicode)
                    ([LF; SPACE] ++ lit "1" ++ [SPACE; LF; 9%N]) few_shot)).
    reflexivity.
  - apply (proj2 (parse_bare_digit (U:=ascii_unicode)
                    ([9%N] ++ lit "0" ++ [LF; LF]) few_shot)).
    reflexivity.
Defined.

(** ** The single-item classifier *)

Lemma same_length_prefix (a b c d : str) :
  a ++ b = c ++ d -> length a = length c -> a = c /\ b = d.
Proof.
  revert c; induction a as [|x a IH]; intros [|y c] E L; simpl in *;
    try discriminate; [now split |].
  injection E as -> E. destruct (IH c E) as [-> ->]; [lia | now split].
Qed.

(** What follows the last "answer:" is the one tail that follows an
    "answer:" and has none of its own. *)
Lemma last_piece_answer (s before tail : str) :
  s = before ++ ANSWER ++ tail ->
  str_in ANSWER tail = false ->
  last_piece (split s ANSWER) = tail.
Proof.
  intros Hs Hno.
  assert (Hin : str_in ANSWER s = true) by (apply str_in_iff; now exists before, tail).
  assert (Hne : ANSWER <> []) by discriminate.
  destruct (last_piece_split Hne _ Hin) as [before' [Hs' Hno']].
  pose proof (@answer_last_occurrence _ _ _ before tail Hs' Hno' Hs) as L1.
  pose proof (@answer_last_occurrence _ _ _ before' _ Hs Hno Hs') as L2.
  rewrite Hs in Hs' at 1.
  apply same_length_prefix in Hs' as [_ E]; [| lia].
  now apply app_inv_head in E.
Qed.

(** X5.  When the lower-cased, stripped reply splits as
    [before ++ "answer:" ++ tail] with no "answer:" in [tail], the first five
    characters of [tail] decide: 1 if '1' is among them, else 0 if '0' is,
    else the label parser's verdict on the reply; nothing is printed. *)
Theorem few_shot_prompting_answer_tail {U : Unicode}
    (env : option str) (client : Client) (title content before tail : str)
    (others : list (option str)) :
  client (chat_request env (few_shot_prompt title))
    = Returned {| choices := Some content :: others |} ->
  lower (strip content) = before ++ lit "answer:" ++ tail ->
  str_in (lit "answer:") tail = false ->
  few_shot_prompting env client title =
    ([], Returned
           (if str_in (lit "1") (slice_to 5 tail) then 1%Z
            else if str_in (lit "0") (slice_to 5 tail) then 0%Z
            else parse_prompt_response (strip content) few_shot)).
Proof.
  intros Hc Hs Hno.
  rewrite (few_shot_prompting_success _ _ _ Hc).
  unfold simple_parsing. fold ANSWER.
  assert (Hin : str_in ANSWER (lower (strip content)) = true)
    by (apply str_in_iff; now exists before, tail).
  rewrite Hin, (@last_piece_answer _ _ _ Hs Hno).
  destruct (str_in (lit "1") (slice_to 5 tail)); [reflexivity |].
  now destruct (str_in (lit "0") (slice_to 5 tail)).
Qed.

Lemma few_shot_prompting_answer_tail_witness :
  few_shot_prompting (U:=ascii_unicode) None
    (replying (lit "Answer: maybe. Final answer: 0 it is")) (lit "Rates up")
  = ([], Returned 0%Z).
Proof.
  apply (@few_shot_prompting_answer_tail ascii_unicode None
           (replying (lit "Answer: maybe. Final answer: 0 it is")) (lit "Rates up")
           (lit "Answer: maybe. Final answer: 0 it is")
           (lit "answer: maybe. final ") (lit " 0 it is") []);
    reflexivity.
Defined.

Lemma simple_parsing_is_prediction {U : Unicode} (response_text : str) :
  is_prediction match simple_parsing response_text with
                | Some label => label
                | None => parse_prompt_response response_text few_shot
                end.
Proof.
  unfold simple_parsing.
  destruct (str_in _ _); [| apply parse_prompt_response_is_prediction].
  destruct (str_in _ _); [unfold is_prediction; tauto |].
  destruct (str_in _ _); [unfold is_prediction; tauto |].
  apply parse_prompt_response_is_prediction.
Qed.

(** X6.  Every run of the classifier ends in one of three ways: it returns
    0, 1 or -1 having printed nothing (the client returned a reply with a
    content); it returns -1 after one error line (an [Exception] was
    caught); or it passes on a [KeyboardInterrupt] that the client raised,
    having printed nothing. *)
Theorem few_shot_prompting_outcomes {U : Unicode}
    (env : option str) (client : Client) (title : str) :
  (exists (prediction : Z) (content : str) (others : list (option str)),
     client (chat_request env (few_shot_prompt title))
       = Returned {| choices := Some content :: others |} /\
     few_shot_prompting env client title = ([], Returned prediction) /\
     is_prediction prediction) \/
  (exists e : exception,
     few_shot_prompting env client title
       = ([PrintErrorInFewShotPrompting e], Returned UNKNOWN)) \/
  (client (chat_request env (few_shot_prompt title)) = Raised KeyboardInterrupt /\
   few_shot_prompting env client title = ([], Raised KeyboardInterrupt)).
Proof.
  unfold few_shot_prompting.
  destruct (client _) as [[[|[content|] others]] | [e |]] eqn:Hc; simpl.
  - right; left. now exists IndexError.
  - left. exists (match simple_parsing (strip content) with
                  | Some l => l
                  | None => parse_prompt_response (strip content) few_shot
                  end), content, others.
    split; [reflexivity | split].
    + now destruct (simple_parsing (strip content)).
    + apply simple_parsing_is_prediction.
  - right; left. now exists AttributeError.
  - right; left. now exists e.
  - right; right. now split.
Qed.



(** ** The metrics aggregator *)

Lemma bind_ret {A B} (a : A) (k : A -> run B) : bind (ret a) k = k a.
Proof. unfold bind, ret. now destruct (k a). Qed.

Lemma getitem_app {A} (pre l : list A) (x : A) :
  getitem (pre ++ x :: l) (length pre) = ret x.
Proof.
  unfold getitem. rewrite nth_error_app2 by lia. now rewrite Nat.sub_diag.
Qed.

(** Looking the kept indices up again gives the kept elements. *)
Lemma comprehension_valid_predictions (l : list Z) :
  forall pre : list Z,
  comprehension (getitem (pre ++ l))
    (map fst (filter (fun ip : nat * Z => negb (snd ip =? -1)%Z)
                (combine (seq (length pre) (length l)) l)))
  = ret (filter is_valid l).
Proof.
  induction l as [|x l IH]; intros pre; [reflexivity |].
  cbn [length seq combine filter snd]. fold (is_valid x).
  specialize (IH (pre ++ [x])).
  rewrite <- app_assoc, length_app, Nat.add_1_r in IH. cbn [app length] in IH.
  destruct (is_valid x); [| exact IH].
  cbn [map fst comprehension]. rewrite getitem_app, bind_ret, IH.
  reflexivity.
Qed.

Lemma comprehension_valid_true_labels (l : list Z) :
  forall pre tl : list Z, length l <= length tl ->
  comprehension (getitem (pre ++ tl))
    (map fst (filter (fun ip : nat * Z => negb (snd ip =? -1)%Z)
                (combine (seq (length pre) (length l)) l)))
  = ret (map snd (valid_pairs l tl)).
Proof.
  induction l as [|x l IH]; intros pre tl Hlen; [reflexivity |].
  destruct tl as [|t tl]; [simpl in Hlen; lia |].
  cbn [length seq combine filter snd]. fold (is_valid x).
  unfold valid_pairs. cbn [combine filter fst]. fold (valid_pairs l tl).
  specialize (IH (pre ++ [t]) tl ltac:(simpl in Hlen; lia)).
  rewrite <- app_assoc, length_app, Nat.add_1_r in IH. cbn [app length] in IH.
  destruct (is_valid x); [| exact IH].
  cbn [map fst snd comprehension]. rewrite getitem_app, bind_ret, IH.
  reflexivity.
Qed.

Lemma valid_predictions_lookup (predictions : list Z) :
  comprehension (getitem predictions) (valid_indices_of predictions)
  = ret (filter is_valid predictions).
Proof. exact (comprehension_valid_predictions predictions []). Qed.

Lemma valid_true_labels_lookup (predictions true_labels : list Z) :
  length predictions <= length true_labels ->
  comprehension (getitem true_labels) (valid_indices_of predictions)
  = ret (map snd (valid_pairs predictions true_labels)).
Proof. exact (comprehension_valid_true_labels predictions [] true_labels). Qed.

Lemma valid_pairs_predictions (l tl : list Z) :
  length l <= length tl -> map fst (valid_pairs l tl) = filter is_valid l.
Proof.
  revert tl; induction l as [|x l IH]; intros [|t tl] Hlen; simpl in *;
    try reflexivity; try lia.
  unfold valid_pairs. cbn [combine filter fst]. fold (valid_pairs l tl).
  destruct (is_valid x); cbn [map fst]; rewrite IH by lia; reflexivity.
Qed.

Lemma calculate_metrics_unfold {SK : Sklearn}
    (predictions true_labels : list Z) (method_name : str) :
  length predictions <= length true_labels ->
  calculate_metrics predictions true_labels method_name =
    match valid_pairs predictions true_labels with
    | [] => ([PrintNoValidPredictions method_name], Returned None)
    | _ :: _ =>
        if two_classes (map snd (valid_pairs predictions true_labels))
                       (map fst (valid_pairs predictions true_labels))
        then
          ([PrintResults
              (summary_of method_name
                 (map snd (valid_pairs predictions true_labels))
                 (map fst (valid_pairs predictions true_labels)) (length predictions))
              (report_text
                 (map snd (valid_pairs predictions true_labels))
                 (map fst (valid_pairs predictions true_labels))
                 [lit "No-clickbait"; lit "Clickbait"])],
           Returned
             (Some (summary_of method_name
                      (map snd (valid_pairs predictions true_labels))
                      (map fst (valid_pairs predictions true_labels))
                      (length predictions))))
        else ([], Raised (Exception ValueError))
    end.
Proof.
  intros Hlen. unfold calculate_metrics.
  rewrite valid_predictions_lookup, bind_ret.
  rewrite (valid_true_labels_lookup _ _ Hlen), bind_ret.
  rewrite <- (valid_pairs_predictions predictions true_labels Hlen).
  destruct (valid_pairs predictions true_labels) as [|pair pairs]; [reflexivity |].
  cbn [map length Nat.eqb]. unfold classification_report, two_classes.
  cbn [length].
  now destruct (length (unique_labels _ _) =? 2).
Qed.

(** X7.  When there is a true label for every prediction, the aggregator
    raises no [IndexError], and its result is a function of the (prediction,
    true label) pairs whose prediction is not -1, taken in order: [None]
    after one line if there is no such pair; [ValueError] from
    [classification_report], with nothing printed, if the true labels and
    predictions of those pairs do not hold exactly two distinct values
    between them; otherwise the summary built from the two projections of
    those pairs, with [total_samples] the number of all predictions.  True
    labels beyond the last prediction play no part. *)
Theorem calculate_metrics_on_valid_pairs {SK : Sklearn}
    (predictions true_labels : list Z) (method_name : str) :
  length predictions <= length true_labels ->
  calculate_metrics predictions true_labels method_name =
    let pairs := valid_pairs predictions true_labels in
    match pairs with
    | [] => ([PrintNoValidPredictions method_name], Returned None)
    | _ :: _ =>
        if (length (unique_labels (map snd pairs) (map fst pairs)) =? 2)%nat then
          let summary :=
            summary_of method_name (map snd pairs) (map fst pairs) (length predictions) in
          ([PrintResults summary
              (report_text (map snd pairs) (map fst pairs)
                 [lit "No-clickbait"; lit "Clickbait"])],
           Returned (Some summary))
        else ([], Raised (Exception ValueError))
    end.
Proof.
  intros Hlen. cbv zeta.
  rewrite (calculate_metrics_unfold predictions true_labels method_name Hlen).
  reflexivity.
Qed.

(** Of three predictions the first is -1; the other two, 1 and 0, meet the
    true labels 1 and 0.  A one-class input raises instead. *)
Lemma calculate_metrics_on_valid_pairs_witness :
  calculate_metrics (SK:=Reference.sklearn) [UNKNOWN; 1%Z; 0%Z] [0%Z; 1%Z; 0%Z; 1%Z] few_shot =
    ([PrintResults (summary_of (SK:=Reference.sklearn) few_shot [1%Z; 0%Z] [1%Z; 0%Z] 3) []],
     Returned (Some (summary_of (SK:=Reference.sklearn) few_shot [1%Z; 0%Z] [1%Z; 0%Z] 3))) /\
  calculate_metrics (SK:=Reference.sklearn) [UNKNOWN; 1%Z] [0%Z; 1%Z; 0%Z] few_shot =
    ([], Raised (Exception ValueError)).
Proof.
  split.
  - apply (calculate_metrics_on_valid_pairs (SK:=Reference.sklearn)
             [UNKNOWN; 1%Z; 0%Z] [0%Z; 1%Z; 0%Z; 1%Z] few_shot).
    simpl. lia.
  - apply (calculate_metrics_on_valid_pairs (SK:=Reference.sklearn)
             [UNKNOWN; 1%Z] [0%Z; 1%Z; 0%Z] few_shot).
    simpl. lia.
Defined.

(** A comprehension of look-ups prints nothing; it returns when every
    index is in range and raises [IndexError] otherwise. *)
Lemma comprehension_getitem_cases {A} (l : list A) (indices : list nat) :
  (Forall (fun i => i < length l) indices /\
   exists values, comprehension (getitem l) indices = ([], Returned values)) \/
  (Exists (fun i => length l <= i) indices /\
   comprehension (getitem l) indices = ([], Raised (Exception IndexError))).
Proof.
  induction indices as [|i indices IH]; cbn [comprehension].
  - left. split; [constructor | now exists []].
  - destruct (nth_error l i) as [a|] eqn:E.
    + assert (Hi : i < length l) by (apply nth_error_Some; congruence).
      assert (G : getitem l i = ret a) by (unfold getitem; now rewrite E).
      rewrite G, bind_ret.
      destruct IH as [[F [values ->]] | [X ->]].
      * left. split; [now constructor | now exists (a :: values)].
      * right. split; [now apply Exists_cons_tl | reflexivity].
    + assert (G : getitem l i = raise (Exception IndexError))
        by (unfold getitem; now rewrite E).
      rewrite G. apply nth_error_None in E.
      right. split; [now apply Exists_cons_hd | reflexivity].
Qed.

(** X8.  Whenever the aggregator returns a summary, its [valid_samples] is
    the number of predictions other than -1, its [total_samples] is the
    number of all predictions, [0 < valid_samples <= total_samples], its
    [method] is the name passed in, and the one line printed carries that
    same summary. *)
Theorem calculate_metrics_summary_counts {SK : Sklearn}
    (predictions true_labels : list Z) (method_name : str)
    (out : list event) (summary : MetricsSummary) :
  calculate_metrics predictions true_labels method_name
    = (out, Returned (Some summary)) ->
  valid_samples summary = length (filter is_valid predictions) /\
  total_samples summary = length predictions /\
  0 < valid_samples summary <= total_samples summary /\
  method summary = method_name /\
  exists report, out = [PrintResults summary report].
Proof.
  unfold calculate_metrics.
  rewrite valid_predictions_lookup, bind_ret.
  destruct (comprehension_getitem_cases true_labels (valid_indices_of predictions))
    as [[_ [vt ->]] | [_ ->]]; [| discriminate].
  change (@pair (list event) (outcome (list Z)) [] (Returned vt)) with (ret vt).
  rewrite bind_ret.
  destruct (length (filter is_valid predictions) =? 0) eqn:E.
  - cbn. discriminate.
  - apply Nat.eqb_neq in E. unfold classification_report.
    destruct (length (unique_labels vt (filter is_valid predictions)) =? _);
      [| cbn; discriminate].
    rewrite bind_ret. cbn. intros [= <- <-]. cbn.
    pose proof (filter_length_le is_valid predictions).
    repeat split; try lia. now eexists.
Qed.

(** Of three predictions the first is -1; the other two, 1 and 0, meet the
    true labels 1 and 0, so that both classes are there and a summary is
    returned. *)
Lemma calculate_metrics_summary_counts_witness :
  calculate_metrics (SK:=Reference.sklearn) [UNKNOWN; 1%Z; 0%Z] [0%Z; 1%Z; 0%Z] few_shot
    = ([PrintResults
          (summary_of (SK:=Reference.sklearn) few_shot [1%Z; 0%Z] [1%Z; 0%Z] 3) []],
       Returned
         (Some (summary_of (SK:=Reference.sklearn) few_shot [1%Z; 0%Z] [1%Z; 0%Z] 3))) /\
  valid_samples (summary_of (SK:=Reference.sklearn) few_shot [1%Z; 0%Z] [1%Z; 0%Z] 3) = 2 /\
  total_samples (summary_of (SK:=Reference.sklearn) few_shot [1%Z; 0%Z] [1%Z; 0%Z] 3) = 3.
Proof.
  split; [reflexivity |].
  destruct (@calculate_metrics_summary_counts Reference.sklearn
              [UNKNOWN; 1%Z; 0%Z] [0%Z; 1%Z; 0%Z] few_shot
              [PrintResults
                 (summary_of (SK:=Reference.sklearn) few_shot [1%Z; 0%Z] [1%Z; 0%Z] 3) []]
              (summary_of (SK:=Reference.sklearn) few_shot [1%Z; 0%Z] [1%Z; 0%Z] 3) eq_refl)
    as [Hv [Ht _]].
  split; assumption.
Defined.

Lemma in_valid_indices (predictions : list Z) :
  forall (start i : nat) (pred : Z),
  nth_error predictions i = Some pred -> pred <> (-1)%Z ->
  In (start + i)
     (map fst (filter (fun ip : nat * Z => negb (snd ip =? -1)%Z)
                 (combine (seq start (length predictions)) predictions))).
Proof.
  induction predictions as [|x l IH]; intros start i pred Hn Hp.
  - destruct i; discriminate.
  - cbn [length seq combine filter snd]. destruct i as [|i]; cbn in Hn.
    + injection Hn as ->. apply Z.eqb_neq in Hp. rewrite Hp. cbn.
      left. lia.
    + specialize (IH (S start) i pred Hn Hp).
      replace (start + S i) with (S start + i) by lia.
      destruct (negb (x =? -1)%Z); [right |]; exact IH.
Qed.

(** X9.  If a prediction other than -1 sits at an index for which there is
    no true label, the aggregator raises [IndexError] and prints nothing. *)
Theorem calculate_metrics_missing_true_label {SK : Sklearn}
    (predictions true_labels : list Z) (method_name : str) (i : nat) (pred : Z) :
  nth_error predictions i = Some pred ->
  pred <> UNKNOWN ->
  length true_labels <= i ->
  calculate_metrics predictions true_labels method_name
    = ([], Raised (Exception IndexError)).
Proof.
  intros Hn Hp Hi. unfold calculate_metrics.
  rewrite valid_predictions_lookup, bind_ret.
  destruct (comprehension_getitem_cases true_labels (valid_indices_of predictions))
    as [[F _] | [_ ->]]; [| reflexivity].
  exfalso. rewrite Forall_forall in F.
  specialize (F i (in_valid_indices predictions 0 i Hn Hp)). lia.
Qed.

Lemma calculate_metrics_missing_true_label_witness :
  calculate_metrics (SK:=Reference.sklearn) [UNKNOWN; 1%Z; 0%Z] [1%Z; 1%Z] few_shot
    = ([], Raised (Exception IndexError)).
Proof.
  apply (@calculate_metrics_missing_true_label Reference.sklearn
           [UNKNOWN; 1%Z; 0%Z] [1%Z; 1%Z] few_shot 2 0%Z).
  - reflexivity.
  - discriminate.
  - simpl. lia.
Defined.

Lemma valid_pairs_agree (predictions : list Z) :
  forall labels1 labels2 : list Z,
  length predictions <= length labels1 ->
  length predictions <= length labels2 ->
  (forall (i : nat) (pred : Z),
     nth_error predictions i = Some pred -> pred <> UNKNOWN ->
     nth_error labels1 i = nth_error labels2 i) ->
  valid_pairs predictions labels1 = valid_pairs predictions labels2.
Proof.
  induction predictions as [|x l IH]; intros labels1 labels2 H1 H2 Hagree;
    [reflexivity |].
  destruct labels1 as [|a l1]; [simpl in H1; lia |].
  destruct labels2 as [|b l2]; [simpl in H2; lia |].
  simpl in H1, H2.
  unfold valid_pairs. cbn [combine filter fst]. fold (valid_pairs l l1) (valid_pairs l l2).
  rewrite (IH l1 l2) by (try lia; intros i pred; exact (Hagree (S i) pred)).
  unfold is_valid. destruct (x =? -1)%Z eqn:E; [reflexivity |].
  apply Z.eqb_neq in E. specialize (Hagree 0 x eq_refl E).
  injection Hagree as ->. reflexivity.
Qed.

(** X10.  The true labels at the positions of the -1 predictions never
    matter: two lists of true labels, each at least as long as the
    predictions, that agree at every position whose prediction is not -1
    give the same result. *)
Theorem calculate_metrics_ignores_unknown_positions {SK : Sklearn}
    (predictions labels1 labels2 : list Z) (method_name : str) :
  length predictions <= length labels1 ->
  length predictions <= length labels2 ->
  (forall (i : nat) (pred : Z),
     nth_error predictions i = Some pred -> pred <> UNKNOWN ->
     nth_error labels1 i = nth_error labels2 i) ->
  calculate_metrics predictions labels1 method_name
    = calculate_metrics predictions labels2 method_name.
Proof.
  intros H1 H2 Hagree.
  rewrite !calculate_metrics_unfold by assumption.
  now rewrite (valid_pairs_agree predictions labels1 labels2 H1 H2 Hagree).
Qed.


Lemma calculate_metrics_ignores_unknown_positions_witness :
  calculate_metrics (SK:=Reference.sklearn) [UNKNOWN; 1%Z] [0%Z; 1%Z] few_shot =
  calculate_metrics (SK:=Reference.sklearn) [UNKNOWN; 1%Z] [1%Z; 1%Z; 0%Z] few_shot.
Proof.
  apply (calculate_metrics_ignores_unknown_positions (SK:=Reference.sklearn)
           [UNKNOWN; 1%Z] [0%Z; 1%Z] [1%Z; 1%Z; 0%Z] few_shot).
  - simpl. lia.
  - simpl. lia.
  - intros [|[|i]] pred H Hp.
    + injection H as <-. now elim Hp.
    + reflexivity.
    + destruct i; discriminate.
Defined.

(** ** The evaluation loop *)

Section UndisturbedLoop.

Context {U : Unicode} {SK : Sklearn}.

Variable w : World.

Lemma prediction_at_returned (i : nat) (item : Sample) :
  (forall request, client_call w i request <> Raised KeyboardInterrupt) ->
  exists out,
    few_shot_prompting (OPENAI_MODEL w) (client_call w i) (title item)
      = (out, Returned (prediction_at w i item)) /\
    quiet out /\ is_prediction (prediction_at w i item).
Proof.
  intros Hc. unfold prediction_at, few_shot_prompting.
  specialize (Hc (chat_request (OPENAI_MODEL w) (few_shot_prompt (title item)))).
  assert (Hunknown : is_prediction UNKNOWN) by (unfold is_prediction; tauto).
  destruct (client_call w i (chat_request (OPENAI_MODEL w) (few_shot_prompt (title item))))
    as [[[|[content|] others]] | [e |]]; simpl;
    try solve [eexists; split; [reflexivity | split; [reflexivity | exact Hunknown]]];
    [| now elim Hc].
  pose proof (simple_parsing_is_prediction (strip content)) as Hp.
  exists []. destruct (simple_parsing (strip content)); now repeat split.
Qed.

Lemma evaluate_items_undisturbed (total : nat) (delay : Q) (data : list Sample) :
  forall (i : nat) (ps ts : list Z),
  undisturbed w delay i (length data) ->
  exists out,
    evaluate_items w total delay i data (ps, ts) =
      (out,
       (ps ++ map (fun ip => prediction_at w (fst ip) (snd ip))
                  (combine (seq i (length data)) data),
        ts ++ map label data),
       Returned tt) /\
    quiet out.
Proof.
  induction data as [|item rest IH]; intros i ps ts Hu.
  - exists []. cbn. now rewrite !app_nil_r.
  - rewrite evaluate_items_step. cbv zeta.
    destruct (Hu 0 ltac:(simpl; lia)) as [Hs Hc]. rewrite Nat.add_0_r in Hs, Hc.
    destruct (prediction_at_returned i item Hc) as [out1 [-> [Hq _]]].
    rewrite Hs.
    destruct (IH (S i) (ps ++ [prediction_at w i item]) (ts ++ [label item]))
      as [out2 [-> Hq2]].
    { intros j Hj. specialize (Hu (S j) ltac:(simpl; lia)).
      now replace (i + S j) with (S i + j) in Hu by lia. }
    eexists. split.
    + cbn [length seq combine map fst snd]. now rewrite <- !app_assoc.
    + apply (@quiet_app [_]); [reflexivity |].
      apply quiet_app; [exact Hq |].
      apply (@quiet_app [_]); [| exact Hq2].
      now destruct (negb (prediction_at w i item =? -1)%Z).
Qed.

Lemma evaluate_few_shot_method_complete (data : list Sample) (delay : Q) :
  undisturbed w delay 0 (length data) ->
  exists out,
    evaluate_few_shot_method w data delay =
      (out,
       Returned (map (fun ip => prediction_at w (fst ip) (snd ip)) (enumerate data),
                 map label data)) /\
    quiet out.
Proof.
  intros Hu. unfold evaluate_few_shot_method, evaluate_few_shot_frame, loop_bind, lift.
  cbn [print fst snd].
  destruct (@evaluate_items_undisturbed (length data) delay data 0 [] [] Hu)
    as [out [-> Hq]].
  exists (PrintEvaluatingBanner :: out). split; [reflexivity | exact Hq].
Qed.

Lemma run_few_shot_evaluation_returns (data_limit : nat) :
  snd (run_few_shot_evaluation w data_limit) = Returned tt.
Proof.
  unfold run_few_shot_evaluation.
  destruct (load_evaluation_data w _ data_limit) as [|item rest]; [reflexivity |].
  cbn [print bind].
  destruct (evaluate_few_shot_method w (item :: rest) 1) as [out [[ps ts] | [e |]]];
    cbn; try reflexivity.
  destruct (calculate_metrics ps ts _) as [out' [[summary |] | [e |]]];
    reflexivity.
Qed.

End UndisturbedLoop.

(** X11.  When nothing interrupts (every pause returns and no call of the
    client raises [KeyboardInterrupt]), the loop goes through the whole data
    set even if the client fails on some or all items: it returns one
    prediction per sample, in order, each 0, 1 or -1 and each what the
    classifier returns on that sample, beside the samples' labels; and it
    prints no metrics report. *)
Theorem evaluate_few_shot_method_undisturbed {U : Unicode}
    (w : World) (data : list Sample) (delay : Q) :
  undisturbed w delay 0 (length data) ->
  exists (out : list event) (predictions : list Z),
    evaluate_few_shot_method w data delay
      = (out, Returned (predictions, map label data)) /\
    predictions = map (fun ip => prediction_at w (fst ip) (snd ip)) (enumerate data) /\
    length predictions = length data /\
    Forall is_prediction predictions /\
    quiet out.
Proof.
  intros Hu.
  destruct (evaluate_few_shot_method_complete data Hu) as [out [E Hq]].
  exists out. eexists. split; [exact E |]. split; [reflexivity |].
  split; [| split; [| exact Hq]].
  - unfold enumerate. now rewrite length_map, length_combine, length_seq, Nat.min_id.
  - apply Forall_forall. intros p Hp. apply in_map_iff in Hp as [[i item] [<- Hin]].
    unfold enumerate in Hin. pose proof (in_combine_l _ _ _ _ Hin) as Hi.
    apply in_seq in Hi. cbn [fst snd].
    destruct (Hu i ltac:(lia)) as [_ Hc].
    now destruct (prediction_at_returned w i item Hc) as [_ [_ [_ Hp]]].
Qed.

Lemma evaluate_few_shot_method_undisturbed_witness :
  exists out,
    evaluate_few_shot_method (U:=ascii_unicode) outage_world two_samples 1%Q
      = (out, Returned ([UNKNOWN; UNKNOWN], [1%Z; 0%Z])).
Proof.
  destruct (@evaluate_few_shot_method_undisturbed ascii_unicode outage_world two_samples 1%Q)
    as [out [predictions [E [-> _]]]].
  - intros j _. split; [reflexivity | discriminate].
  - exists out. exact E.
Defined.

(** X12.  A run of the evaluation never ends by raising, neither an
    [Exception] nor a [KeyboardInterrupt], whatever the client, the pauses
    and the data are: it always returns. *)
Theorem run_few_shot_evaluation_never_raises {U : Unicode} {SK : Sklearn}
    (w : World) (data_limit : nat) :
  exists out, run_few_shot_evaluation w data_limit = (out, Returned tt).
Proof.
  pose proof (run_few_shot_evaluation_returns w data_limit) as H.
  destruct (run_few_shot_evaluation w data_limit) as [out o].
  exists out. cbn in H. now rewrite H.
Qed.










(** ** The data loader *)

Section LoaderFacts.

Context {U : Unicode}.

Variable outside : Loader.Outside.

(** The loop appends one element per line, in order, until the lines or the
    limit run out or a line raises. *)
Lemma read_lines_prefix (limit : Z) (lines : list str) :
  forall (i : nat) (data d : list Loader.json) (r : option Loader.error),
  Loader.read_lines outside limit i lines data = (d, r) ->
  exists new : list Loader.json,
    d = data ++ new /\
    length new <= length lines /\
    map Some new =
      map (fun il => Loader.element_of outside (fst il) (snd il))
          (combine (seq i (length new)) lines) /\
    match r with
    | None =>
        length new = length lines \/
        (length new < length lines /\ (limit <= Z.of_nat (i + length new))%Z)
    | Some e =>
        (Z.of_nat (i + length new) < limit)%Z /\
        exists line,
          nth_error lines (length new) = Some line /\
          Loader.element_of outside (i + length new) line = None
    end.
Proof.
  induction lines as [|line rest IH]; intros i data d r; cbn [Loader.read_lines].
  - intros [= <- <-]. exists []. rewrite app_nil_r. cbn. repeat split; auto.
  - destruct (limit <=? Z.of_nat i)%Z eqn:El.
    + intros [= <- <-]. exists []. rewrite app_nil_r. cbn [length map combine seq].
      repeat split; [lia |]. right. apply Z.leb_le in El.
      split; [lia | now rewrite Nat.add_0_r].
    + apply Z.leb_gt in El.
      destruct (Loader.json_loads outside (strip line)) as [item|] eqn:Ej.
      * destruct (Loader.build_item item i) as [e | element] eqn:Eb.
        -- intros [= <- <-]. exists []. rewrite app_nil_r, Nat.add_0_r.
           cbn [length map combine seq nth_error]. repeat split; [lia | assumption |].
           exists line. split; [reflexivity |].
           unfold Loader.element_of. now rewrite Ej, Eb.
        -- intros H. destruct (IH _ _ _ _ H) as [new [-> [Hlen [Hmap Hr]]]].
           exists (element :: new). rewrite <- app_assoc.
           cbn [length map combine seq fst snd nth_error app].
           repeat split; [lia | |].
           ++ rewrite Hmap. f_equal.
              unfold Loader.element_of. now rewrite Ej, Eb.
           ++ replace (i + S (length new)) with (S i + length new) by lia.
              destruct r as [e|].
              ** exact Hr.
              ** destruct Hr as [Hr | [Hr1 Hr2]]; [left; lia | right; split; [lia | exact Hr2]].
      * intros [= <- <-]. exists []. rewrite app_nil_r, Nat.add_0_r.
        cbn [length map combine seq nth_error]. repeat split; [lia | assumption |].
        exists line. split; [reflexivity |].
        unfold Loader.element_of. now rewrite Ej.
Qed.

Lemma read_lines_bound (limit : Z) (lines : list str) :
  forall (i : nat) (data d : list Loader.json) (r : option Loader.error),
  Loader.read_lines outside limit i lines data = (d, r) ->
  exists k, length d = length data + k /\ (k = 0 \/ (Z.of_nat (i + k) <= limit)%Z).
Proof.
  induction lines as [|line rest IH]; intros i data d r; cbn [Loader.read_lines].
  - intros [= <- <-]. exists 0. split; [lia | now left].
  - destruct (limit <=? Z.of_nat i)%Z eqn:El.
    + intros [= <- <-]. exists 0. split; [lia | now left].
    + apply Z.leb_gt in El.
      destruct (Loader.json_loads outside (strip line)) as [item|];
        [| intros [= <- <-]; exists 0; split; [lia | now left]].
      destruct (Loader.build_item item i) as [e | element];
        [intros [= <- <-]; exists 0; split; [lia | now left] |].
      intros H. destruct (IH _ _ _ _ H) as [k [Hk Hb]].
      rewrite length_app in Hk. cbn [length] in Hk.
      exists (S k). split; [lia |]. right. destruct Hb as [-> | Hb]; lia.
Qed.

Lemma current_path_exists (file_path path : str) :
  Loader.current_path_of outside file_path = Some path ->
  Loader.os_path_exists outside path = true.
Proof.
  unfold Loader.current_path_of.
  destruct (Loader.os_path_exists outside file_path) eqn:E1; [now intros [= <-] |].
  destruct (Loader.os_path_exists outside Loader.DEFAULT_PATH) eqn:E2;
    [now intros [= <-] |].
  intros H. now apply find_some in H.
Qed.

End LoaderFacts.

Lemma firstn_combine_seq {A} (l : list A) :
  forall n start m : nat, n <= m ->
  firstn n (combine (seq start m) l) = combine (seq start n) l.
Proof.
  induction l as [|x l IH]; intros n start m Hn.
  - destruct n, m; cbn; try reflexivity; now destruct (seq _ _).
  - destruct n as [|n]; [reflexivity |].
    destruct m as [|m]; [lia |].
    cbn. f_equal. apply IH. lia.
Qed.

(** X15.  The loader never returns more elements than [limit], whatever the
    files hold and wherever it stops; with a [limit] of 0 or less it returns
    the empty list. *)
Theorem load_evaluation_data_at_most_limit {U : Unicode}
    (outside : Loader.Outside) (file_path : str) (limit : Z) :
  length (snd (Loader.load_evaluation_data outside file_path limit)) <= Z.to_nat limit.
Proof.
  unfold Loader.load_evaluation_data.
  destruct (Loader.current_path_of outside file_path) as [path|]; cbn; [| lia].
  destruct (_ && _); cbn; [| lia].
  destruct (Loader.open_lines outside path) as [lines|]; cbn; [| lia].
  destruct (Loader.read_lines outside limit 0 lines []) as [d r] eqn:E.
  destruct (read_lines_bound _ _ _ _ _ E) as [k [Hk Hb]].
  cbn [length] in Hk. destruct r; cbn; lia.
Qed.

(** X16.  When the loader opens a file it returns the elements of the first
    [n] lines, one per line and in order, where either no line raised and
    [n] is the smaller of the number of lines and [limit], or line [n] is
    the first to raise (in [json.loads] or in building the element): then
    the error is printed and the elements of the lines before it are still
    returned. *)
Theorem load_evaluation_data_prefix {U : Unicode}
    (outside : Loader.Outside) (file_path path : str) (limit : Z) (lines : list str) :
  Loader.current_path_of outside file_path = Some path ->
  path <> [] ->
  Loader.open_lines outside path = Some lines ->
  exists (data : list Loader.json),
    snd (Loader.load_evaluation_data outside file_path limit) = data /\
    map Some data =
      map (fun il => Loader.element_of outside (fst il) (snd il))
          (firstn (length data) (enumerate lines)) /\
    ((fst (Loader.load_evaluation_data outside file_path limit) =
        [Loader.PrintLoadingDataFrom path; Loader.PrintLoadedSamples (length data)] /\
      length data = Nat.min (length lines) (Z.to_nat limit)) \/
     (exists (e : Loader.error) (line : str),
        fst (Loader.load_evaluation_data outside file_path limit) =
          [Loader.PrintLoadingDataFrom path; Loader.PrintErrorLoadingData e] /\
        (Z.of_nat (length data) < limit)%Z /\
        nth_error lines (length data) = Some line /\
        Loader.element_of outside (length data) line = None)).
Proof.
  intros Hp Hne Ho. unfold Loader.load_evaluation_data. rewrite Hp.
  rewrite (current_path_exists _ _ Hp).
  assert (Hs : str_eqb path [] = false)
    by (destruct (str_eqb path []) eqn:E; [apply str_eqb_eq in E; congruence | reflexivity]).
  rewrite Hs, Ho. cbn [negb andb].
  destruct (Loader.read_lines outside limit 0 lines []) as [d r] eqn:E.
  destruct (read_lines_prefix _ _ _ _ _ E) as [new [-> [Hlen [Hmap Hr]]]].
  cbn [app Nat.add] in *.
  assert (Hfirst : firstn (length new) (enumerate lines)
                   = combine (seq 0 (length new)) lines)
    by (apply firstn_combine_seq; lia).
  destruct r as [e|]; cbn [fst snd]; exists new; (split; [reflexivity |]);
    (split; [now rewrite Hfirst |]).
  - right. destruct Hr as [Hl [line [Hn He]]]. exists e, line. now repeat split.
  - left. split; [reflexivity |].
    destruct (read_lines_bound _ _ _ _ _ E) as [k [Hk Hb]]. cbn [length Nat.add] in Hk.
    destruct Hr as [Hr | [Hr1 Hr2]]; lia.
Qed.

Lemma load_evaluation_data_prefix_witness :
  Loader.load_evaluation_data (U:=ascii_unicode) small_outside (lit "missing.jsonl") 25 =
    ([Loader.PrintLoadingDataFrom (lit "data/test/data.jsonl");
      Loader.PrintErrorLoadingData Loader.JSONDecodeError],
     [Loader.JObject
        [ (lit "id", Loader.JInt 0);
          (lit "title", Loader.JString (lit "Rates up"));
          (lit "label", Loader.JInt 0);
          (lit "truth_class", Loader.JString (lit "unknown")) ]]).
Proof.
  destruct (@load_evaluation_data_prefix ascii_unicode small_outside
              (lit "missing.jsonl") (lit "data/test/data.jsonl") 25 three_lines
              eq_refl ltac:(discriminate) eq_refl) as [data [Hd _]].
  rewrite (surjective_pairing (Loader.load_evaluation_data _ _ _)), Hd.
  rewrite <- Hd. reflexivity.
Defined.

(** The first piece of [split] is what precedes the first occurrence of the
    separator. *)
Lemma split_first_piece (sep : str) (before : str) :
  forall rest cur : str,
  sep <> [] ->
  (forall j, j < length before -> startswith (skipn j (before ++ rest)) sep = false) ->
  startswith rest sep = true ->
  hd [] (split_from sep 0 cur (before ++ rest)) = rev cur ++ before.
Proof.
  induction before as [|x before IH]; intros rest cur Hne Hno Hst.
  - rewrite app_nil_r. cbn [app].
    destruct rest as [|c rest]; [destruct sep; [congruence | discriminate] |].
    cbn [split_from]. now rewrite Hst.
  - pose proof (Hno 0 ltac:(simpl; lia)) as H0. cbn [skipn app] in H0.
    cbn [app split_from]. rewrite H0.
    rewrite IH; [cbn [rev]; now rewrite <- app_assoc | assumption | | assumption].
    intros j Hj. exact (Hno (S j) ltac:(simpl; lia)).
Qed.

(** "[SEP]" cannot overlap itself: where it does not occur in [before], no
    occurrence starts inside [before] in [before ++ "[SEP]" ++ after]. *)
Lemma sep_first_occurrence (before after : str) :
  str_in Loader.SEP before = false ->
  forall j, j < length before ->
  startswith (skipn j (before ++ Loader.SEP ++ after)) Loader.SEP = false.
Proof.
  intros Hno j Hj.
  destruct (startswith _ _) eqn:E; [| reflexivity]. exfalso.
  apply startswith_iff in E as [c E].
  rewrite skipn_app in E. replace (j - length before) with 0 in E by lia.
  cbn [skipn] in E.
  assert (Hx : skipn j before <> []).
  { intros H. apply (f_equal (@length char)) in H. rewrite length_skipn in H.
    cbn in H. lia. }
  assert (Hin : str_in Loader.SEP before = true); [| congruence].
  rewrite <- (firstn_skipn j before).
  destruct (skipn j before) as [|x0 x]; [congruence |].
  clear - E. cbv in E. injection E as -> E.
  do 4 (destruct x as [|? x]; [discriminate E | injection E as -> E]).
  apply str_in_iff. exists (firstn j before), x. reflexivity.
Qed.

(** X17.  For a dict whose 'text' is a string with a "[SEP]" in it, the
    element appended has the four keys 'id', 'title', 'label' and
    'truth_class': the title is what precedes the first "[SEP]", stripped of
    surrounding whitespace and then of surrounding double quotes; 'id' and
    'truth_class' default to the line number and to "unknown"; and a dict
    without 'label' raises [KeyError]. *)
Theorem build_item_title {U : Unicode}
    (items : list (str * Loader.json)) (before after : str) (i : nat) :
  Loader.dict_get (lit "text") items
    = Some (Loader.JString (before ++ Loader.SEP ++ after)) ->
  str_in Loader.SEP before = false ->
  Loader.build_item (Loader.JObject items) i =
    match Loader.dict_get (lit "label") items with
    | Some label =>
        inr (Loader.JObject
               [ (lit "id",
                  match Loader.dict_get (lit "id") items with
                  | Some id => id
                  | None => Loader.JInt (Z.of_nat i)
                  end);
                 (lit "title",
                  Loader.JString (Loader.strip_char DQUOTE (strip before)));
                 (lit "label", label);
                 (lit "truth_class",
                  match Loader.dict_get (lit "truth_class") items with
                  | Some truth_class => truth_class
                  | None => Loader.JString (lit "unknown")
                  end) ])
    | None => inl (Loader.KeyError (lit "label"))
    end.
Proof.
  intros Ht Hno. unfold Loader.build_item.
  cbn [Loader.py_in Loader.subscript Loader.get Loader.split_of Loader.and_then].
  rewrite Ht. cbn [Loader.py_in Loader.and_then Loader.split_of].
  assert (Hin : str_in Loader.SEP (before ++ Loader.SEP ++ after) = true)
    by (apply str_in_iff; now exists before, after).
  rewrite Hin. unfold split.
  rewrite (@split_first_piece Loader.SEP before (Loader.SEP ++ after) []);
    [ | discriminate | now apply sep_first_occurrence
      | apply startswith_iff; now exists after ].
  cbn [rev app].
  now destruct (Loader.dict_get (lit "label") items).
Qed.

Lemma build_item_title_witness :
  Loader.build_item (U:=ascii_unicode) first_item 7 =
    inr (Loader.JObject
           [ (lit "id", Loader.JInt 7);
             (lit "title", Loader.JString (lit "Rates up"));
             (lit "label", Loader.JInt 0);
             (lit "truth_class", Loader.JString (lit "unknown")) ]).
Proof.
  exact (@build_item_title ascii_unicode
           [ (lit "text",
              Loader.JString (quoted (lit "Rates up") ++ lit " [SEP] body [SEP] more"));
             (lit "label", Loader.JInt 0) ]
           (quoted (lit "Rates up") ++ lit " ") (lit " body [SEP] more") 7
           eq_refl eq_refl).
Defined.


